(** * PlaceTheCountry: the globe renderers, embedded and checked

    A shallow embedding of the four renderer components
    ([AccurateGlobe], [Projection2DGlobe], [LowPolyGlobe], [WebGPUGlobe])
    and of the properties their design document states about them.

    Conventions of the embedding.
    - A JavaScript number that only ever holds an integer (the string hash)
      is a [Z]; the 32-bit wrap of [<<] is written out.
    - Every other JavaScript number (zoom, angles, coordinates, colour
      channels) is idealised as a real number of [R]: rounding of IEEE
      doubles and of [Float32Array] stores is left out.
    - React state is a record; an event handler is a function from the
      state to the next state.
    - An [async] function that may throw or reject is a value of
      [Completion]; [try]/[catch]/[finally] are written out.
    - An object compared with [===] carries its identity in a field. *)

From stdpp Require Import base list.
From Stdlib Require Import ZArith String Ascii DecimalString Bool Lia Reals Lra.
Import ListNotations.
Local Open Scope R_scope.

(* ================================================================== *)
(** * Part I: the code *)
(* ================================================================== *)

(** ** JavaScript values shared by the components *)

Module JS.

(** A JavaScript string is its sequence of UTF-16 code units. *)
Definition jsstring : Type := list Z.

Definition charCode (c : ascii) : Z := Z.of_N (N_of_ascii c).

(** The code units of a literal written in the source. *)
Definition lit (s : string) : jsstring := map charCode (list_ascii_of_string s).

(** [ToInt32]: reduction modulo 2^32 into [-2^31, 2^31). *)
Definition toInt32 (z : Z) : Z :=
  let m := (z mod 2 ^ 32)%Z in
  if (m >=? 2 ^ 31)%Z then (m - 2 ^ 32)%Z else m.

(** [a << k] on numbers holding integers. *)
Definition shl (a k : Z) : Z :=
  toInt32 (Z.shiftl (toInt32 a) (Z.land k 31)).

(** [a || b] where [a] is an optional string property: [undefined] and
    the empty string are both falsy. *)
Definition or_string (a : option jsstring) (b : jsstring) : jsstring :=
  match a with
  | Some (c :: s) => c :: s
  | Some [] | None => b
  end.

(** Equality of two strings, [a === b] / [a !== b]. *)
Definition string_eqb (a b : jsstring) : bool :=
  bool_decide (a = b).

(** The outcome of running a piece of code that may throw (or, for an
    awaited promise, reject). *)
Inductive Completion (A : Type) : Type :=
| Normal (a : A)
| Throw (message : string).
Arguments Normal {A} a.
Arguments Throw {A} message.

(** Code that updates component state and may throw: the state at the
    point of the throw is kept, as React keeps the updates already
    queued by the handler. *)
Definition Eff (S A : Type) : Type := S -> Completion A * S.

#[global] Instance eff_ret {S} : MRet (Eff S) :=
  fun A a s => (Normal a, s).

#[global] Instance eff_bind {S} : MBind (Eff S) :=
  fun A B k m s =>
    match m s with
    | (Normal a, s') => k a s'
    | (Throw e, s') => (Throw e, s')
    end.

(** [setX(...)]: a state update. *)
Definition update {S} (f : S -> S) : Eff S unit :=
  fun s => (Normal tt, f s).

(** [await p] / a call into the host whose outcome is [c]. *)
Definition await {S A} (c : Completion A) : Eff S A :=
  fun s => (c, s).

(** [throw new Error(message)] *)
Definition throw {S A} (message : string) : Eff S A :=
  fun s => (Throw message, s).

(** [try { body } catch (e) { handler e }] *)
Definition try_catch {S A} (body : Eff S A) (handler : string -> Eff S A)
  : Eff S A :=
  fun s =>
    match body s with
    | (Normal a, s') => (Normal a, s')
    | (Throw e, s') => handler e s'
    end.

(** [try { body } finally { final }]: [final] runs on both exits and
    the exit of [body] stands unless [final] throws itself. *)
Definition try_finally {S A} (body : Eff S A) (final : Eff S unit) : Eff S A :=
  fun s =>
    match body s with
    | (c, s') =>
        match final s' with
        | (Normal _, s'') => (c, s'')
        | (Throw e, s'') => (Throw e, s'')
        end
    end.

(** Truncation toward zero, the integer part [%] works with. *)
Definition trunc (x : R) : Z :=
  if Rle_dec 0 x then Int_part x else (- Int_part (- x))%Z.

(** [x % y] on numbers that are not integers: the remainder has the sign
    of [x].  Used with a non-zero [y] only. *)
Definition rem (x y : R) : R := x - y * IZR (trunc (x / y)).

(** [Math.round(x)]: the nearest integer, a half rounding up. *)
Definition Math_round (x : R) : Z := Int_part (x + 0.5).

End JS.

Import JS.

(** ** Country features, as all map components declare them *)

Record Properties : Type := mkProperties {
  ADMIN : option jsstring;
  ISO_A2 : option jsstring;
  ISO_A3 : option jsstring;   (* reached through the index signature *)
  POP_EST : option R;
  NAME : option jsstring
}.

(** [ref] is the identity of the object: [===] on two features compares
    it and nothing else. *)
Record CountryFeature : Type := mkFeature {
  ref : nat;
  properties : option Properties   (* read with [?.] in the source *)
}.

(** [a === country] where [a] is [CountryFeature | null]. *)
Definition same_object (a : option CountryFeature) (country : CountryFeature) : bool :=
  match a with
  | Some f => Nat.eqb (ref f) (ref country)
  | None => false
  end.

(** [country.properties?.ISO_A2] and the like. *)
Definition prop (field : Properties -> option jsstring) (country : CountryFeature)
  : option jsstring :=
  match properties country with
  | Some p => field p
  | None => None
  end.

(** ** The dataset fetch, as the three map components perform it *)

(** What [fetch(url)] resolves to.  [payload] is the outcome of
    [response.json()] followed by topojson-client's [feature(...)] and the
    read of [.features]: a rejected body, a malformed topology or a missing
    country layer is a [Throw]. *)
Record Response : Type := mkResponse {
  ok : bool;
  status : Z;
  payload : Completion (list CountryFeature)
}.

(** The network: a rejected [fetch] is a [Throw]. *)
Definition Fetch : Type := string -> Completion Response.

Definition showStatus (n : Z) : string :=
  NilZero.string_of_int (Z.to_int n).

(** [`HTTP error! status: ${response.status}`] *)
Definition httpError (r : Response) : string :=
  ("HTTP error! status: " ++ showStatus (status r))%string.

(** [feature.properties?.ISO_A2 !== 'AQ'] *)
Definition notAntarctica (feature : CountryFeature) : bool :=
  match prop ISO_A2 feature with
  | Some code => negb (string_eqb code (lit "AQ"))
  | None => true
  end.

Definition loadFailed : string := "Failed to load country data. Please try again.".

(** What a map component returns from its render. *)
Inductive View : Type :=
| LoadingPlaceholder
| ErrorPlaceholder (message : string)
| Visualization (polygons : list CountryFeature) (infoPanel : option CountryFeature).

(** [if (error)]: [null] and the empty string are falsy. *)
Definition truthy (error : option string) : bool :=
  match error with
  | Some (String _ _) => true
  | Some EmptyString | None => false
  end.

(** ** src/src/components/AccurateGlobe.tsx: the globe with the
       per-country palette *)

Module AccurateGlobe.

Definition COUNTRY_COLORS : list string :=
  [ "#49ac8f"; "#5fb399"; "#4a90a4"; "#6fa86f"; "#8fb3d9"; "#7c9a92";
    "#a3c4bc"; "#b8d4be"; "#90be6d"; "#43aa8b"; "#577590"; "#6d597a";
    "#b56576"; "#e09f3e"; "#9b5de5"; "#00bbf9"; "#fee440"; "#f15bb5";
    "#00f5d4" ]%string.

(** One turn of the loop body:
    [hash = isoCode.charCodeAt(i) + ((hash << 5) - hash)]. *)
Definition hashStep (hash c : Z) : Z := (c + (shl hash 5 - hash))%Z.

(** The [for] loop over the code units, from [hash = 0]. *)
Definition hashCode (isoCode : jsstring) : Z := fold_left hashStep isoCode 0%Z.

Definition isoCodeOf (country : CountryFeature) : jsstring :=
  or_string (prop ISO_A2 country) (or_string (prop ISO_A3 country) (lit "XX")).

(** [Math.abs(hash) % COUNTRY_COLORS.length]; [%] truncates, [Z.rem]. *)
Definition colorIndex (country : CountryFeature) : Z :=
  Z.rem (Z.abs (hashCode (isoCodeOf country))) (Z.of_nat (List.length COUNTRY_COLORS)).

(** [COUNTRY_COLORS[colorIndex]]: [None] is JavaScript's [undefined]. *)
Definition getCountryColor (country : CountryFeature) : option string :=
  match colorIndex country with
  | Zneg _ => None
  | i => nth_error COUNTRY_COLORS (Z.to_nat i)
  end.

Record State : Type := mkState {
  countries : list CountryFeature;
  selectedCountry : option CountryFeature;
  hoveredCountry : option CountryFeature;
  isLoading : bool;
  error : option string;
  globeEl : bool;            (* is the ref attached to a mounted globe *)
  autoRotate : bool;         (* [globe.controls().autoRotate] *)
  autoRotateSpeed : R;
  pointOfView : R * R * R    (* lat, lng, altitude *)
}.

(** The [useState] initial values; the controls start as the globe
    library leaves them. *)
Definition initial : State :=
  mkState [] None None true None false false 2 (0, 0, 2.5)%R.

Definition setCountries (v : list CountryFeature) (st : State) : State :=
  mkState v (selectedCountry st) (hoveredCountry st) (isLoading st) (error st)
          (globeEl st) (autoRotate st) (autoRotateSpeed st) (pointOfView st).
Definition setSelectedCountry (v : option CountryFeature) (st : State) : State :=
  mkState (countries st) v (hoveredCountry st) (isLoading st) (error st)
          (globeEl st) (autoRotate st) (autoRotateSpeed st) (pointOfView st).
Definition setHoveredCountry (v : option CountryFeature) (st : State) : State :=
  mkState (countries st) (selectedCountry st) v (isLoading st) (error st)
          (globeEl st) (autoRotate st) (autoRotateSpeed st) (pointOfView st).
Definition setIsLoading (v : bool) (st : State) : State :=
  mkState (countries st) (selectedCountry st) (hoveredCountry st) v (error st)
          (globeEl st) (autoRotate st) (autoRotateSpeed st) (pointOfView st).
Definition setError (v : option string) (st : State) : State :=
  mkState (countries st) (selectedCountry st) (hoveredCountry st) (isLoading st) v
          (globeEl st) (autoRotate st) (autoRotateSpeed st) (pointOfView st).

Definition dataURL : string := "https://cdn.jsdelivr.net/npm/world-atlas@2/countries-50m.json".

Definition loadCountryData (fetch : Fetch) : Eff State unit :=
  try_catch
    (update (setIsLoading true);;
     update (setError None);;
     response ← await (fetch dataURL);
     (if negb (ok response) then throw (httpError response) else mret tt);;
     features ← await (payload response);
     update (setCountries (filter (fun f => notAntarctica f = true) features));;
     update (setIsLoading false))
    (fun err =>
       update (setError (Some loadFailed));;
       update (setIsLoading false)).

(** The mount effect that configures the controls. *)
Definition initControls (st : State) : State :=
  if globeEl st then
    mkState (countries st) (selectedCountry st) (hoveredCountry st)
            (isLoading st) (error st) (globeEl st) true 0.3%R (20, 0, 2)%R
  else st.

Definition handleCountryClick (polygon : CountryFeature) (st : State) : State :=
  setSelectedCountry (Some polygon) st.

Definition handleCountryHover (polygon : option CountryFeature) (st : State) : State :=
  setHoveredCountry polygon st.

Definition getPolygonCapColor (st : State) (polygon : CountryFeature) : option string :=
  if same_object (selectedCountry st) polygon then Some "#ffd700"%string
  else if same_object (hoveredCountry st) polygon then Some "#ffffff"%string
  else getCountryColor polygon.

Definition render (st : State) : View :=
  if isLoading st then LoadingPlaceholder
  else if truthy (error st) then ErrorPlaceholder (default ""%string (error st))
  else Visualization (countries st) (selectedCountry st).

(** React sets the ref after a render that contains the globe element
    and clears it after one that does not. *)
Definition setGlobeEl (v : bool) (st : State) : State :=
  mkState (countries st) (selectedCountry st) (hoveredCountry st) (isLoading st)
          (error st) v (autoRotate st) (autoRotateSpeed st) (pointOfView st).

Definition attachRef (st : State) : State :=
  setGlobeEl (match render st with
              | Visualization _ _ => true
              | _ => false
              end) st.

(** What happens to the mounted component: the fetch started by the mount
    effect settles, or the user acts on the globe. *)
Inductive Event : Type :=
| DataArrived (fetch : Fetch)
| Click (polygon : CountryFeature)
| Hover (polygon : option CountryFeature)
| ClearSelection.

Definition dispatch (st : State) (e : Event) : State :=
  attachRef
    match e with
    | DataArrived fetch => snd (loadCountryData fetch st)
    | Click polygon => handleCountryClick polygon st
    | Hover polygon => handleCountryHover polygon st
    | ClearSelection => setSelectedCountry None st
    end.

(** Mount: the first render shows the loading placeholder, and the effect
    that configures the controls (dependencies [[]]) runs once, after it. *)
Definition mounted : State := initControls (attachRef initial).

Definition run (events : list Event) : State := fold_left dispatch events mounted.

Definition getPolygonAltitude (st : State) (polygon : CountryFeature) : R :=
  if same_object (selectedCountry st) polygon then 0.05
  else if same_object (hoveredCountry st) polygon then 0.02
  else 0.01.

(** The polynomial [c1 * 31^(n-1) + ... + cn] in Horner form, to which
    [hashCode] is compared below. *)
Definition horner31 (isoCode : jsstring) : Z :=
  fold_left (fun h c => 31 * h + c)%Z isoCode 0%Z.

Definition getPolygonStrokeColor (st : State) (polygon : CountryFeature) : string :=
  if same_object (selectedCountry st) polygon then "#ffd700"%string
  else if same_object (hoveredCountry st) polygon then "#ffffff"%string
  else "rgba(255, 255, 255, 0.5)"%string.

(** The Clear Selection button of the info panel. *)
Definition clearSelection (st : State) : State := setSelectedCountry None st.

End AccurateGlobe.

(** ** src/components/AccurateGlobe.tsx: the globe with one base colour *)

Module AccurateGlobeBase.

Record State : Type := mkState {
  countries : list CountryFeature;
  selectedCountry : option CountryFeature;
  hoveredCountry : option CountryFeature;
  isLoading : bool;
  error : option string;
  globeEl : bool;
  autoRotate : bool;
  autoRotateSpeed : R;
  pointOfView : R * R * R
}.

Definition initial : State :=
  mkState [] None None true None false false 2 (0, 0, 2.5)%R.

Definition setCountries (v : list CountryFeature) (st : State) : State :=
  mkState v (selectedCountry st) (hoveredCountry st) (isLoading st) (error st)
          (globeEl st) (autoRotate st) (autoRotateSpeed st) (pointOfView st).
Definition setSelectedCountry (v : option CountryFeature) (st : State) : State :=
  mkState (countries st) v (hoveredCountry st) (isLoading st) (error st)
          (globeEl st) (autoRotate st) (autoRotateSpeed st) (pointOfView st).
Definition setHoveredCountry (v : option CountryFeature) (st : State) : State :=
  mkState (countries st) (selectedCountry st) v (isLoading st) (error st)
          (globeEl st) (autoRotate st) (autoRotateSpeed st) (pointOfView st).
Definition setIsLoading (v : bool) (st : State) : State :=
  mkState (countries st) (selectedCountry st) (hoveredCountry st) v (error st)
          (globeEl st) (autoRotate st) (autoRotateSpeed st) (pointOfView st).
Definition setError (v : option string) (st : State) : State :=
  mkState (countries st) (selectedCountry st) (hoveredCountry st) (isLoading st) v
          (globeEl st) (autoRotate st) (autoRotateSpeed st) (pointOfView st).
Definition setPointOfView (v : R * R * R) (st : State) : State :=
  mkState (countries st) (selectedCountry st) (hoveredCountry st) (isLoading st)
          (error st) (globeEl st) (autoRotate st) (autoRotateSpeed st) v.

Definition dataURL : string := "https://cdn.jsdelivr.net/npm/world-atlas@2/countries-110m.json".

Definition loadCountryData (fetch : Fetch) : Eff State unit :=
  try_catch
    (update (setIsLoading true);;
     update (setError None);;
     response ← await (fetch dataURL);
     (if negb (ok response) then throw (httpError response) else mret tt);;
     features ← await (payload response);
     update (setCountries (filter (fun f => notAntarctica f = true) features));;
     update (setIsLoading false))
    (fun err =>
       update (setError (Some loadFailed));;
       update (setIsLoading false)).

Definition initControls (st : State) : State :=
  if globeEl st then
    mkState (countries st) (selectedCountry st) (hoveredCountry st)
            (isLoading st) (error st) (globeEl st) true 0.5%R (20, 0, 2.5)%R
  else st.

(** [globeEl.current && country.properties?.NAME] *)
Definition canZoomTo (st : State) (country : CountryFeature) : bool :=
  globeEl st &&
  match prop NAME country with
  | Some (_ :: _) => true
  | _ => false
  end.

Definition handleCountryClick (polygon : CountryFeature) (st : State) : State :=
  let st1 := setSelectedCountry (Some polygon) st in
  if canZoomTo st1 polygon then setPointOfView (20, 0, 1.5)%R st1 else st1.

Definition handleCountryHover (polygon : option CountryFeature) (st : State) : State :=
  setHoveredCountry polygon st.

Definition getPolygonCapColor (st : State) (polygon : CountryFeature) : string :=
  let baseColor := "#49ac8f"%string in
  let selectedColor := "#5fb399"%string in
  let hoveredColor := "#66c0a8"%string in
  if same_object (selectedCountry st) polygon then selectedColor
  else if same_object (hoveredCountry st) polygon then hoveredColor
  else baseColor.

Definition render (st : State) : View :=
  if isLoading st then LoadingPlaceholder
  else if truthy (error st) then ErrorPlaceholder (default ""%string (error st))
  else Visualization (countries st) (selectedCountry st).

(** React sets the ref after a render that contains the globe element
    and clears it after one that does not. *)
Definition setGlobeEl (v : bool) (st : State) : State :=
  mkState (countries st) (selectedCountry st) (hoveredCountry st) (isLoading st)
          (error st) v (autoRotate st) (autoRotateSpeed st) (pointOfView st).

Definition attachRef (st : State) : State :=
  setGlobeEl (match render st with
              | Visualization _ _ => true
              | _ => false
              end) st.

(** What happens to the mounted component: the fetch started by the mount
    effect settles, or the user acts on the globe. *)
Inductive Event : Type :=
| DataArrived (fetch : Fetch)
| Click (polygon : CountryFeature)
| Hover (polygon : option CountryFeature)
| ClearSelection.

Definition dispatch (st : State) (e : Event) : State :=
  attachRef
    match e with
    | DataArrived fetch => snd (loadCountryData fetch st)
    | Click polygon => handleCountryClick polygon st
    | Hover polygon => handleCountryHover polygon st
    | ClearSelection => setSelectedCountry None st
    end.

(** Mount: the first render shows the loading placeholder, and the effect
    that configures the controls (dependencies [[]]) runs once, after it. *)
Definition mounted : State := initControls (attachRef initial).

Definition run (events : list Event) : State := fold_left dispatch events mounted.

Definition getPolygonAltitude (st : State) (polygon : CountryFeature) : R :=
  if same_object (selectedCountry st) polygon then 0.05
  else if same_object (hoveredCountry st) polygon then 0.02
  else 0.01.

End AccurateGlobeBase.

(** ** src/components/Projection2DGlobe.tsx *)

Module Projection2DGlobe.

Record ProjectionConfig : Type := mkProjectionConfig {
  rotate : R * R * R;
  scale : R;
  translate : R * R
}.

Record State : Type := mkState {
  countries : list CountryFeature;
  selectedCountry : option CountryFeature;
  hoveredCountry : option CountryFeature;
  isLoading : bool;
  error : option string;
  projectionConfig : ProjectionConfig;
  isRotating : bool;
  zoom : R
}.

Definition initialProjection : ProjectionConfig :=
  mkProjectionConfig (0, 0, 0)%R 200%R (400, 300)%R.

Definition initial : State :=
  mkState [] None None true None initialProjection false 1%R.

Definition setCountries (v : list CountryFeature) (st : State) : State :=
  mkState v (selectedCountry st) (hoveredCountry st) (isLoading st) (error st)
          (projectionConfig st) (isRotating st) (zoom st).
Definition setSelectedCountry (v : option CountryFeature) (st : State) : State :=
  mkState (countries st) v (hoveredCountry st) (isLoading st) (error st)
          (projectionConfig st) (isRotating st) (zoom st).
Definition setHoveredCountry (v : option CountryFeature) (st : State) : State :=
  mkState (countries st) (selectedCountry st) v (isLoading st) (error st)
          (projectionConfig st) (isRotating st) (zoom st).
Definition setIsLoading (v : bool) (st : State) : State :=
  mkState (countries st) (selectedCountry st) (hoveredCountry st) v (error st)
          (projectionConfig st) (isRotating st) (zoom st).
Definition setError (v : option string) (st : State) : State :=
  mkState (countries st) (selectedCountry st) (hoveredCountry st) (isLoading st) v
          (projectionConfig st) (isRotating st) (zoom st).
Definition setProjectionConfig (v : ProjectionConfig) (st : State) : State :=
  mkState (countries st) (selectedCountry st) (hoveredCountry st) (isLoading st)
          (error st) v (isRotating st) (zoom st).
Definition setIsRotating (v : bool) (st : State) : State :=
  mkState (countries st) (selectedCountry st) (hoveredCountry st) (isLoading st)
          (error st) (projectionConfig st) v (zoom st).
(** [setZoom(prev => f prev)] *)
Definition setZoom (f : R -> R) (st : State) : State :=
  mkState (countries st) (selectedCountry st) (hoveredCountry st) (isLoading st)
          (error st) (projectionConfig st) (isRotating st) (f (zoom st)).

Definition dataURL : string := "https://cdn.jsdelivr.net/npm/world-atlas@2/countries-110m.json".

Definition loadCountryData (fetch : Fetch) : Eff State unit :=
  try_catch
    (update (setIsLoading true);;
     update (setError None);;
     response ← await (fetch dataURL);
     (if negb (ok response) then throw (httpError response) else mret tt);;
     features ← await (payload response);
     update (setCountries (filter (fun f => notAntarctica f = true) features));;
     update (setIsLoading false))
    (fun err =>
       update (setError (Some loadFailed));;
       update (setIsLoading false)).

Definition handleCountryClick (geography : CountryFeature) (st : State) : State :=
  setIsRotating false (setSelectedCountry (Some geography) st).

Definition handleCountryHover (geography : option CountryFeature) (st : State) : State :=
  setHoveredCountry geography st.

(** [Math.max(0.5, Math.min(3, prev * delta))] *)
Definition zoomBy (delta : R) (prev : R) : R :=
  Rmax 0.5 (Rmin 3 (prev * delta)).

Definition handleWheel (deltaY : R) (st : State) : State :=
  let delta := if Rlt_dec 0 deltaY then 0.9%R else 1.1%R in
  setZoom (zoomBy delta) st.

(** The Start/Stop Rotation button. *)
Definition toggleRotation (st : State) : State :=
  setIsRotating (negb (isRotating st)) st.

(** The Reset View button. *)
Definition resetView (st : State) : State :=
  setZoom (fun _ => 1%R) (setProjectionConfig initialProjection st).

(** The Clear Selection button. *)
Definition clearSelection (st : State) : State :=
  setSelectedCountry None st.

(** [getGeographyStyle(geography).default.fill] *)
Definition defaultFill (st : State) (geography : CountryFeature) : string :=
  let isSelected := same_object (selectedCountry st) geography in
  let isHovered := same_object (hoveredCountry st) geography in
  if isSelected then "#5fb399"%string
  else if isHovered then "#66c0a8"%string
  else "#49ac8f"%string.

Definition render (st : State) : View :=
  if isLoading st then LoadingPlaceholder
  else if truthy (error st) then ErrorPlaceholder (default ""%string (error st))
  else Visualization (countries st) (selectedCountry st).

(** [projectionConfig.rotate[0]], [[1]] and [[2]]. *)
Definition longitude (st : State) : R := fst (fst (rotate (projectionConfig st))).
Definition latitude (st : State) : R := snd (fst (rotate (projectionConfig st))).
Definition roll (st : State) : R := snd (rotate (projectionConfig st)).

(** The body of the auto-rotation interval:
    [rotate: [(prev.rotate[0] + 0.5) % 360, prev.rotate[1], prev.rotate[2]]]. *)
Definition autoRotateStep (prev : ProjectionConfig) : ProjectionConfig :=
  match rotate prev with
  | (lambda, phi, gamma) =>
      mkProjectionConfig (rem (lambda + 0.5) 360, phi, gamma) (scale prev) (translate prev)
  end.

(** One firing of the interval, which exists only while [isRotating]. *)
Definition intervalTick (st : State) : State :=
  if isRotating st then setProjectionConfig (autoRotateStep (projectionConfig st)) st
  else st.

(** What a press on the map captures for its [mousemove] listener. *)
Record Drag : Type := mkDrag {
  startX : R;
  startY : R;
  startRotate : R * R * R
}.

(** The [mousemove] listener registered by a press. *)
Definition handleMouseMove (drag : Drag) (clientX clientY : R) (st : State) : State :=
  let deltaX := clientX - startX drag in
  let deltaY := clientY - startY drag in
  match startRotate drag with
  | (lambda, phi, gamma) =>
      setProjectionConfig
        (mkProjectionConfig
           (rem (lambda + deltaX * 0.5) 360,
            Rmax (-90) (Rmin 90 (phi - deltaY * 0.5)),
            gamma)
           (scale (projectionConfig st)) (translate (projectionConfig st)))
        st
  end.

(** The mounted component: its React state and the [mousemove] listeners
    now registered on the document, oldest first. *)
Record Mounted : Type := mkMounted {
  state : State;
  listeners : list Drag
}.

(** [handleMouseDown]; [mapRef] tells whether [mapRef.current] is set. *)
Definition handleMouseDown (mapRef : bool) (clientX clientY : R) (m : Mounted) : Mounted :=
  if mapRef then
    mkMounted (setIsRotating false (state m))
              (listeners m ++ [mkDrag clientX clientY (rotate (projectionConfig (state m)))])
  else m.

(** A [mousemove] on the document runs every registered listener. *)
Definition mouseMove (clientX clientY : R) (m : Mounted) : Mounted :=
  mkMounted (fold_left (fun st drag => handleMouseMove drag clientX clientY st)
                       (listeners m) (state m))
            (listeners m).

(** A [mouseup] on the document: every [handleMouseUp] removes its pair
    of listeners. *)
Definition mouseUp (m : Mounted) : Mounted := mkMounted (state m) [].

(** The events the rendered map reacts to. *)
Inductive Event : Type :=
| Click (geography : CountryFeature)
| Hover (geography : option CountryFeature)
| Wheel (deltaY : R)
| ToggleRotation
| ResetView
| ClearSelection
| MoveStart                       (* [ZoomableGroup]'s [onMoveStart] *)
| IntervalTick
| MouseDown (clientX clientY : R) (* on the map element, so the ref is set *)
| MouseMove (clientX clientY : R)
| MouseUp.

Definition onState (f : State -> State) (m : Mounted) : Mounted :=
  mkMounted (f (state m)) (listeners m).

Definition dispatch (m : Mounted) (e : Event) : Mounted :=
  match e with
  | Click geography => onState (handleCountryClick geography) m
  | Hover geography => onState (handleCountryHover geography) m
  | Wheel deltaY => onState (handleWheel deltaY) m
  | ToggleRotation => onState toggleRotation m
  | ResetView => onState resetView m
  | ClearSelection => onState clearSelection m
  | MoveStart => onState (setIsRotating false) m
  | IntervalTick => onState intervalTick m
  | MouseDown clientX clientY => handleMouseDown true clientX clientY m
  | MouseMove clientX clientY => mouseMove clientX clientY m
  | MouseUp => mouseUp m
  end.

Definition run (events : list Event) (m : Mounted) : Mounted :=
  fold_left dispatch events m.

Definition mounted : Mounted := mkMounted initial [].



End Projection2DGlobe.

(** ** three.js vectors and vertex buffers, as the procedural globes use
       them *)

Module Vector3.

Record t : Type := mk { x : R; y : R; z : R }.

Definition length (v : t) : R :=
  sqrt (x v * x v + y v * y v + z v * z v).

Definition multiplyScalar (s : R) (v : t) : t :=
  mk (x v * s) (y v * s) (z v * s).

Definition divideScalar (s : R) (v : t) : t :=
  multiplyScalar (1 / s) v.

(** [divideScalar(this.length() || 1)] *)
Definition normalize (v : t) : t :=
  let l := length v in
  divideScalar (if Req_dec_T l 0 then 1 else l) v.

(** [vertex.fromArray(array, offset)] on a buffer of whole vertices. *)
Definition fromArray (array : list R) (offset : nat) : option t :=
  match array !! offset, array !! (offset + 1)%nat, array !! (offset + 2)%nat with
  | Some a, Some b, Some c => Some (mk a b c)
  | _, _, _ => None
  end.

(** [array[i] = v.x; array[i + 1] = v.y; array[i + 2] = v.z]; a store
    past the end of a typed array does nothing.  The number stored is kept
    exact here; the rounding a [Float32Array] applies is [narrow] below. *)
Definition store (array : list R) (i : nat) (v : t) : list R :=
  <[(i + 2)%nat := z v]> (<[(i + 1)%nat := y v]> (<[i := x v]> array)).

(** What a [Float32Array] holds after the three coordinates of [v] were
    stored into it, [fround] being the rounding to single precision
    ([Math.fround]). *)
Definition narrow (fround : R -> R) (v : t) : t :=
  mk (fround (x v)) (fround (y v)) (fround (z v)).

(** The buffer holding the given vertices one after the other. *)
Fixpoint buffer (vs : list t) : list R :=
  match vs with
  | [] => []
  | v :: vs' => x v :: y v :: z v :: buffer vs'
  end.

End Vector3.

(** [for (let i = 0; i < positions.length; i += 3)] with a body that
    reads the vertex at [i], computes [body vertex] and stores it back at
    [i] of the same buffer.  [fuel] bounds the number of turns; the
    buffer's length is always enough. *)
Fixpoint displaceFrom (body : Vector3.t -> Vector3.t)
    (fuel i : nat) (positions : list R) : list R :=
  match fuel with
  | O => positions
  | S fuel' =>
      if (i <? List.length positions)%nat then
        match Vector3.fromArray positions i with
        | Some vertex =>
            displaceFrom body fuel' (i + 3)%nat (Vector3.store positions i (body vertex))
        | None => positions
        end
      else positions
  end.

Definition displaceLoop (body : Vector3.t -> Vector3.t) (positions : list R) : list R :=
  displaceFrom body (List.length positions) 0%nat positions.

(** The same loop with a body that stores into a second buffer. *)
Fixpoint colorFrom (body : Vector3.t -> Vector3.t)
    (fuel i : nat) (positions colors : list R) : list R :=
  match fuel with
  | O => colors
  | S fuel' =>
      if (i <? List.length positions)%nat then
        match Vector3.fromArray positions i with
        | Some vertex =>
            colorFrom body fuel' (i + 3)%nat positions (Vector3.store colors i (body vertex))
        | None => colors
        end
      else colors
  end.

(** [new Float32Array(positions.length)], filled by the loop. *)
Definition colorLoop (body : Vector3.t -> Vector3.t) (positions : list R) : list R :=
  colorFrom body (List.length positions) 0%nat positions
            (replicate (List.length positions) 0%R).

(** A [BufferGeometry]: the position attribute and, when set, the colour
    attribute. *)
Record Geometry : Type := mkGeometry {
  position : list R;
  color : option (list R)
}.

(** three.js's [new SphereGeometry(radius, widthSegments, heightSegments)],
    a library outside the repository: the vertices it generates.  Its
    position attribute is the [Vector3.buffer] of them. *)
Definition SphereGeometryT : Type := R -> nat -> nat -> list Vector3.t.

(** The host's pseudo-random source: the values the coming calls of
    [Math.random()] return. *)
Definition Rng : Type := nat -> R.

Definition Math_random : Eff Rng R :=
  fun g => (Normal (g 0%nat), fun n => g (S n)).

(** [mesh.rotation]: the two Euler angles the frame callbacks write. *)
Record MeshRotation : Type := mkMeshRotation {
  rotationX : R;
  rotationY : R
}.

(** ** src/components/LowPolyGlobe.tsx *)

Module LowPolyGlobe.

Definition displacement (vertex : Vector3.t) : R :=
  let noise := sin (Vector3.x vertex * 4) * cos (Vector3.y vertex * 4)
               * sin (Vector3.z vertex * 4) in
  noise * 0.08.

Definition largeDisplacement (vertex : Vector3.t) : R :=
  let largeScaleNoise := sin (Vector3.x vertex * 2) * sin (Vector3.y vertex * 2) in
  largeScaleNoise * 0.12.

(** The body of the displacement loop. *)
Definition displaced (vertex : Vector3.t) : Vector3.t :=
  Vector3.multiplyScalar (1 + displacement vertex + largeDisplacement vertex)
                         (Vector3.normalize vertex).

Definition baseRadius : R := 2.

Definition geometry (SphereGeometry : SphereGeometryT) : Eff Rng Geometry :=
  let geo := Vector3.buffer (SphereGeometry baseRadius 12%nat 8%nat) in
  let positions := displaceLoop displaced geo in
  mret (mkGeometry positions None).

(** The [useFrame] callback of the globe: [elapsedTime] is
    [state.clock.elapsedTime]; a ref that is not set is [None]. *)
Definition spin (elapsedTime delta : R) (mesh : option MeshRotation)
  : option MeshRotation :=
  match mesh with
  | Some r => Some (mkMeshRotation (sin (elapsedTime * 0.1) * 0.1) (rotationY r + delta * 0.3))
  | None => None
  end.

Definition frame (elapsedTime delta : R)
    (refs : option MeshRotation * option MeshRotation)
  : option MeshRotation * option MeshRotation :=
  (spin elapsedTime delta (fst refs), spin elapsedTime delta (snd refs)).

(** The frames of an animation, oldest first, each with its elapsed time
    and its delta. *)
Definition frames (clock : list (R * R))
    (refs : option MeshRotation * option MeshRotation)
  : option MeshRotation * option MeshRotation :=
  fold_left (fun refs tick => frame (fst tick) (snd tick) refs) clock refs.

(** [Array.from({ length: 3 }, () => (Math.random() - 0.5) * 100)] *)
Definition starCoordinate : Eff Rng R :=
  u ← Math_random; mret ((u - 0.5) * 100).

Definition starTriple : Eff Rng (list R) :=
  x ← starCoordinate; y ← starCoordinate; z ← starCoordinate; mret [x; y; z].

(** The loop of [Stars]: [starPositions.push(x, y, z)], [starCount] times. *)
Fixpoint starPositions (starCount : nat) : Eff Rng (list R) :=
  match starCount with
  | O => mret []
  | S n => xyz ← starTriple; rest ← starPositions n; mret (xyz ++ rest)
  end.

Definition stars : Eff Rng (list R) := starPositions 500.

End LowPolyGlobe.

(** ** src/components/WebGPUGlobe.tsx *)

Module WebGPUGlobe.

(** *** Capability detection *)

Inductive GPUAdapter : Type := gpuAdapter.

(** [navigator.gpu]: the [requestAdapter()] call resolves to an adapter
    or to [null], or rejects. *)
Record GPU : Type := mkGPU {
  requestAdapter : Completion (option GPUAdapter)
}.

(** What the component sees of the host.  [gpu] is [None] when
    ['gpu' in navigator] is false and [Some None] when the property is
    there with a falsy value.  [firstSample] is the outcome of the first,
    synchronous call of the frame-rate sampler. *)
Record Host : Type := mkHost {
  gpu : option (option GPU);
  firstSample : Completion unit
}.

Record State : Type := mkState {
  isWebGPU : option bool;
  isLoading : bool;
  performanceStats : R * R    (* fps, memory *)
}.

Definition initial : State := mkState None true (60, 0)%R.

Definition setIsWebGPU (v : bool) (st : State) : State :=
  mkState (Some v) (isLoading st) (performanceStats st).
Definition setIsLoading (v : bool) (st : State) : State :=
  mkState (isWebGPU st) v (performanceStats st).

Definition isWebGPUSupported (host : Host) : Eff State bool :=
  match gpu host with
  | None => mret false
  | Some None => mret false
  | Some (Some g) =>
      adapter ← await (requestAdapter g);
      mret (match adapter with Some _ => true | None => false end)
  end.

Definition checkWebGPU (host : Host) : Eff State unit :=
  try_finally
    (try_catch
       (isWebGPUSupported host ≫= fun supported : bool =>
        update (setIsWebGPU supported);;
        if supported then await (firstSample host) else mret tt)
       (fun error => update (setIsWebGPU false)))
    (update (setIsLoading false)).

(** [isWebGPU || false], the prop handed to the globe. *)
Definition isWebGPUProp (st : State) : bool :=
  match isWebGPU st with
  | Some b => b
  | None => false
  end.

Inductive RenderQualityTier : Type := basic | advanced.

Definition tier (st : State) : RenderQualityTier :=
  if isWebGPUProp st then advanced else basic.

(** The probe is absent (['gpu' in navigator] is false), unavailable
    ([navigator.gpu] is falsy, or the request resolves to [null]), or its
    request throws or rejects. *)
Definition probeFails (host : Host) : Prop :=
  gpu host = None
  \/ gpu host = Some None
  \/ (exists g : GPU, gpu host = Some (Some g) /\ requestAdapter g = Normal None)
  \/ (exists (g : GPU) (message : string),
        gpu host = Some (Some g) /\ requestAdapter g = Throw message).

(** What the detection is expected to record: [true] exactly when the
    request resolves to an adapter and the sampler starts. *)
Definition detects (host : Host) : bool :=
  match gpu host with
  | Some (Some g) =>
      match requestAdapter g, firstSample host with
      | Normal (Some _), Normal _ => true
      | _, _ => false
      end
  | _ => false
  end.

(** *** The globe's geometry *)

Definition widthSegments (isWebGPU : bool) : nat := if isWebGPU then 128 else 64.
Definition heightSegments (isWebGPU : bool) : nat := if isWebGPU then 64 else 32.

Definition displacement (vertex : Vector3.t) : R :=
  let noise1 := sin (Vector3.x vertex * 8) * cos (Vector3.y vertex * 8)
                * sin (Vector3.z vertex * 8) in
  let noise2 := sin (Vector3.x vertex * 16) * cos (Vector3.y vertex * 16)
                * sin (Vector3.z vertex * 16) * 0.5 in
  let noise3 := sin (Vector3.x vertex * 4) * cos (Vector3.y vertex * 4)
                * sin (Vector3.z vertex * 4) * 2 in
  (noise1 + noise2 + noise3) * 0.03.

(** The body of the displacement loop. *)
Definition displaced (vertex : Vector3.t) : Vector3.t :=
  Vector3.multiplyScalar (1 + displacement vertex) (Vector3.normalize vertex).

Definition ocean : Vector3.t := Vector3.mk 0.1 0.3 0.6.
Definition snow : Vector3.t := Vector3.mk 0.9 0.9 1.0.
Definition land (elevation : R) : Vector3.t :=
  Vector3.mk (0.3 + elevation * 2) (0.4 + elevation * 1.5) (0.2 + elevation * 0.5).

Definition latitudeOf (vertex : Vector3.t) : R := Rabs (Vector3.y vertex).
Definition elevationOf (vertex : Vector3.t) : R := Vector3.length vertex - 1.

(** The body of the colour loop: the (r, g, b) stored for a vertex. *)
Definition vertexColor (vertex : Vector3.t) : Vector3.t :=
  let latitude := latitudeOf vertex in
  let elevation := elevationOf vertex in
  if Rlt_dec 0.01 elevation then
    if Rlt_dec 0.8 latitude then snow else land elevation
  else ocean.

Definition baseRadius : R := 1.

Definition geometry (SphereGeometry : SphereGeometryT) (isWebGPU : bool)
  : Eff Rng Geometry :=
  let geo := Vector3.buffer
               (SphereGeometry baseRadius (widthSegments isWebGPU) (heightSegments isWebGPU)) in
  let positions := displaceLoop displaced geo in
  let colors := colorLoop vertexColor positions in
  mret (mkGeometry positions (Some colors)).

(** *** The star field, which does draw random numbers *)

Definition starColor (colorType : R) : Vector3.t :=
  if Rlt_dec colorType 0.33 then Vector3.mk 1.0 1.0 1.0
  else if Rlt_dec colorType 0.66 then Vector3.mk 0.7 0.8 1.0
  else Vector3.mk 1.0 0.9 0.6.

(** One turn of the loop: the position and the colour of star [i], as
    computed, before the assignments into the two [Float32Array]s round
    them ([starField32] below). *)
Definition star : Eff Rng (Vector3.t * Vector3.t) :=
  u1 ← Math_random;
  let theta := u1 * PI * 2 in
  u2 ← Math_random;
  let phi := acos (2 * u2 - 1) in
  u3 ← Math_random;
  let radius := 8 + u3 * 2 in
  colorType ← Math_random;
  mret (Vector3.mk (radius * sin phi * cos theta)
                   (radius * sin phi * sin theta)
                   (radius * cos phi),
        starColor colorType).

Fixpoint stars (count : nat) : Eff Rng (list (Vector3.t * Vector3.t)) :=
  match count with
  | O => mret []
  | S n => s ← star; rest ← stars n; mret (s :: rest)
  end.

Definition starField (count : nat) : Eff Rng Geometry :=
  ps ← stars count;
  mret (mkGeometry (Vector3.buffer (map fst ps)) (Some (Vector3.buffer (map snd ps)))).

(** *** The frame callbacks *)

(** The fields of the globe's material that the frame callback writes. *)
Record Material : Type := mkMaterial {
  iridescenceThicknessRange : R * R;
  sheenRoughness : R;
  needsUpdate : bool
}.

(** The [useFrame] callback of [Globe]; a ref that is not set is [None]. *)
Definition globeFrame (isWebGPU : bool) (elapsedTime delta : R)
    (scene : option MeshRotation * Material) : option MeshRotation * Material :=
  match fst scene with
  | Some r =>
      (Some (mkMeshRotation (sin (elapsedTime * 0.05) * 0.02) (rotationY r + delta * 0.08)),
       if isWebGPU then
         mkMaterial (150 + sin (elapsedTime * 0.5) * 50, 250 + sin (elapsedTime * 0.5) * 50)
                    (0.5 + sin (elapsedTime * 0.3) * 0.3)
                    true
       else snd scene)
  | None => scene
  end.

Definition globeFrames (isWebGPU : bool) (clock : list (R * R))
    (scene : option MeshRotation * Material) : option MeshRotation * Material :=
  fold_left (fun scene tick => globeFrame isWebGPU (fst tick) (snd tick) scene) clock scene.

(** The [useFrame] callback of [Atmosphere] with both refs set: the
    scales of the atmosphere shell and of the glow shell. *)
Definition atmospherePulse (elapsedTime : R) : R * R :=
  (1.15 + sin (elapsedTime * 1.5) * 0.02, 1.25 + sin (elapsedTime * 1.2) * 0.03).

(** The radii the two shells are built with and the distances
    [OrbitControls] keeps the camera within. *)
Definition atmosphereRadius : R := 1.15.
Definition glowRadius : R := 1.25.
Definition minDistance : R := 1.5.
Definition maxDistance : R := 8.

(** *** The same buffers with the stores rounded

    [geometry] and [starField] idealise a store into a [Float32Array] as
    exact.  Here every store rounds with [fround]: the loops are the same,
    and what a store of [v] leaves in the buffer is [Vector3.narrow fround v]. *)

Definition geometry32 (fround : R -> R) (SphereGeometry : SphereGeometryT)
    (isWebGPU : bool) : Eff Rng Geometry :=
  let geo := Vector3.buffer
               (SphereGeometry baseRadius (widthSegments isWebGPU) (heightSegments isWebGPU)) in
  let positions := displaceLoop (fun vertex => Vector3.narrow fround (displaced vertex)) geo in
  let colors := colorLoop (fun vertex => Vector3.narrow fround (vertexColor vertex)) positions in
  mret (mkGeometry positions (Some colors)).

Definition starField32 (fround : R -> R) (count : nat) : Eff Rng Geometry :=
  ps ← stars count;
  mret (mkGeometry
          (Vector3.buffer (map (fun star => Vector3.narrow fround (fst star)) ps))
          (Some (Vector3.buffer (map (fun star => Vector3.narrow fround (snd star)) ps)))).

End WebGPUGlobe.

(** ** Sample data used by the concrete evaluations below *)

(** The first vertex three.js generates for a sphere (u = 0, v = 0):
    [(-r cos 0 sin 0, r cos 0, r sin 0 sin 0)]. *)
Definition northPole (radius : R) : Vector3.t := Vector3.mk 0 radius 0.

(** A one-vertex stand-in for three.js's sphere, for evaluating the
    geometry code on a concrete buffer. *)
Definition poleOnly : SphereGeometryT := fun radius _ _ => [northPole radius].

Definition noRandom : Rng := fun _ => 0.

Definition france : CountryFeature :=
  mkFeature 1 (Some (mkProperties (Some (lit "France")) (Some (lit "FR")) None
                                  (Some 67000000) (Some (lit "France")))).

(** A feature as world-atlas ships them: a name and no ISO code. *)
Definition nameOnly : CountryFeature :=
  mkFeature 2 (Some (mkProperties None None None None (Some (lit "Somewhere")))).

(** A server answering with France alone. *)
Definition fetchFrance : Fetch := fun _ => Normal (mkResponse true 200 (Normal [france])).

(** The accurate globes once mounted and their data has arrived. *)
Definition loadedGlobe : AccurateGlobeBase.State :=
  AccurateGlobeBase.run [AccurateGlobeBase.DataArrived fetchFrance].

Definition loadedPaletteGlobe : AccurateGlobe.State :=
  AccurateGlobe.run [AccurateGlobe.DataArrived fetchFrance].

(** The 2D map once its data has arrived and Start Rotation was pressed. *)
Definition rotatingMap : Projection2DGlobe.State :=
  Projection2DGlobe.toggleRotation
    (Projection2DGlobe.mkState [france] None None false None
       Projection2DGlobe.initialProjection false 1).

(** A server answering 404 with a body that is no topology. *)
Definition notFound : Response :=
  mkResponse false 404 (Throw "Unexpected token < in JSON at position 0").

Definition fetch404 : Fetch := fun _ => Normal notFound.

(** A browser whose [requestAdapter()] rejects. *)
Definition rejectingHost : WebGPUGlobe.Host :=
  WebGPUGlobe.mkHost
    (Some (Some (WebGPUGlobe.mkGPU (Throw "requestAdapter rejected"))))
    (Normal tt).


(* ================================================================== *)
(** * Part II: the properties *)
(* ================================================================== *)

(** ** Vertex buffers and the two loops over them *)

Section Loops.

Variable body : Vector3.t -> Vector3.t.

Lemma buffer_length (vs : list Vector3.t) :
  List.length (Vector3.buffer vs) = (3 * List.length vs)%nat.
Proof. induction vs as [|v vs IH]; simpl; lia. Qed.

Lemma fromArray_at (pre : list R) (rest : list Vector3.t) (v : Vector3.t) :
  Vector3.fromArray (pre ++ Vector3.buffer (v :: rest)) (List.length pre) = Some v.
Proof.
  unfold Vector3.fromArray; simpl.
  rewrite !lookup_app_r by lia.
  replace (List.length pre - List.length pre)%nat with 0%nat by lia.
  replace (List.length pre + 1 - List.length pre)%nat with 1%nat by lia.
  replace (List.length pre + 2 - List.length pre)%nat with 2%nat by lia.
  simpl. now destruct v.
Qed.

Lemma store_at (pre rest : list R) (a b c : R) (v : Vector3.t) :
  Vector3.store (pre ++ a :: b :: c :: rest) (List.length pre) v
  = (pre ++ Vector3.buffer [v]) ++ rest.
Proof.
  unfold Vector3.store.
  rewrite !insert_app_r_alt by lia.
  replace (List.length pre - List.length pre)%nat with 0%nat by lia.
  replace (List.length pre + 1 - List.length pre)%nat with 1%nat by lia.
  replace (List.length pre + 2 - List.length pre)%nat with 2%nat by lia.
  simpl. now rewrite <- app_assoc.
Qed.

(** The in-place loop, started at the end of the part [pre] already
    done, rewrites the vertices that follow and nothing else. *)
Lemma displaceFrom_spec (vs : list Vector3.t) :
  forall (fuel : nat) (pre : list R),
    (List.length vs <= fuel)%nat ->
    displaceFrom body fuel (List.length pre) (pre ++ Vector3.buffer vs)
    = pre ++ Vector3.buffer (map body vs).
Proof.
  induction vs as [|v vs IH]; intros fuel pre Hfuel.
  - destruct fuel as [|fuel]; simpl; [reflexivity|].
    rewrite app_nil_r.
    now rewrite (proj2 (Nat.ltb_ge _ _)) by lia.
  - destruct fuel as [|fuel]; [simpl in Hfuel; lia|].
    cbn [displaceFrom].
    assert (Hlt : (List.length pre <? List.length (pre ++ Vector3.buffer (v :: vs)))%nat = true).
    { apply Nat.ltb_lt. rewrite length_app; simpl; lia. }
    rewrite Hlt, fromArray_at.
    cbn [Vector3.buffer]. rewrite store_at.
    replace (List.length pre + 3)%nat
      with (List.length (pre ++ Vector3.buffer [body v]))
      by (rewrite length_app; simpl; lia).
    rewrite IH by (simpl in Hfuel; lia).
    rewrite <- app_assoc. reflexivity.
Qed.

(** The displacement loop is the vertex-by-vertex map of its body. *)
Lemma displaceLoop_spec (vs : list Vector3.t) :
  displaceLoop body (Vector3.buffer vs) = Vector3.buffer (map body vs).
Proof.
  unfold displaceLoop.
  apply (displaceFrom_spec vs (List.length (Vector3.buffer vs)) []).
  rewrite buffer_length; lia.
Qed.

Lemma colorFrom_spec (vs : list Vector3.t) :
  forall (fuel : nat) (ppre cpre : list R),
    (List.length vs <= fuel)%nat ->
    List.length ppre = List.length cpre ->
    colorFrom body fuel (List.length cpre) (ppre ++ Vector3.buffer vs)
              (cpre ++ replicate (3 * List.length vs) 0)
    = cpre ++ Vector3.buffer (map body vs).
Proof.
  induction vs as [|v vs IH]; intros fuel ppre cpre Hfuel Hlen.
  - destruct fuel as [|fuel]; simpl; [reflexivity|].
    rewrite app_nil_r.
    now rewrite (proj2 (Nat.ltb_ge _ _)) by lia.
  - destruct fuel as [|fuel]; [simpl in Hfuel; lia|].
    cbn [colorFrom].
    assert (Hlt : (List.length cpre <? List.length (ppre ++ Vector3.buffer (v :: vs)))%nat = true).
    { apply Nat.ltb_lt. rewrite length_app; simpl; lia. }
    rewrite Hlt, <- Hlen, fromArray_at, Hlen.
    replace (3 * List.length (v :: vs))%nat with (S (S (S (3 * List.length vs)))) by (simpl; lia).
    cbn [replicate]. rewrite store_at.
    replace (List.length cpre + 3)%nat
      with (List.length (cpre ++ Vector3.buffer [body v]))
      by (rewrite length_app; simpl; lia).
    cbn [Vector3.buffer].
    replace (ppre ++ Vector3.x v :: Vector3.y v :: Vector3.z v :: Vector3.buffer vs)
      with ((ppre ++ Vector3.buffer [v]) ++ Vector3.buffer vs)
      by (rewrite <- app_assoc; reflexivity).
    rewrite IH; [|simpl in Hfuel; lia|rewrite !length_app; simpl; lia].
    rewrite <- app_assoc. reflexivity.
Qed.

(** The colour loop is the vertex-by-vertex map of its body. *)
Lemma colorLoop_spec (vs : list Vector3.t) :
  colorLoop body (Vector3.buffer vs) = Vector3.buffer (map body vs).
Proof.
  unfold colorLoop.
  rewrite buffer_length.
  apply (colorFrom_spec vs (3 * List.length vs) [] []); [lia|reflexivity].
Qed.

End Loops.

(** ** Lengths of scaled and normalised vectors *)

Lemma length_nonneg (v : Vector3.t) : 0 <= Vector3.length v.
Proof. apply sqrt_pos. Qed.

Lemma length_multiplyScalar (s : R) (v : Vector3.t) :
  Vector3.length (Vector3.multiplyScalar s v) = Rabs s * Vector3.length v.
Proof.
  destruct v as [a b c]. unfold Vector3.length, Vector3.multiplyScalar; simpl.
  replace (a * s * (a * s) + b * s * (b * s) + c * s * (c * s))
    with (s² * (a * a + b * b + c * c)) by (unfold Rsqr; ring).
  rewrite sqrt_mult; [|apply Rle_0_sqr|nra].
  now rewrite sqrt_Rsqr_abs.
Qed.

Lemma length_normalize (v : Vector3.t) :
  Vector3.length v <> 0 -> Vector3.length (Vector3.normalize v) = 1.
Proof.
  intros Hv. pose proof (length_nonneg v) as Hpos.
  unfold Vector3.normalize, Vector3.divideScalar.
  destruct (Req_dec_T (Vector3.length v) 0) as [E|_]; [contradiction|].
  rewrite length_multiplyScalar.
  rewrite Rabs_pos_eq.
  - field. exact Hv.
  - apply Rlt_le. apply Rdiv_lt_0_compat; lra.
Qed.

(** A vertex normalised and then scaled by a non-negative factor lies at
    that factor's distance from the centre, whatever its distance was. *)
Lemma length_rescaled (s : R) (v : Vector3.t) :
  Vector3.length v <> 0 -> 0 <= s ->
  Vector3.length (Vector3.multiplyScalar s (Vector3.normalize v)) = s.
Proof.
  intros Hv Hs.
  rewrite length_multiplyScalar, length_normalize by exact Hv.
  rewrite Rabs_pos_eq by exact Hs. ring.
Qed.

Lemma product3_bound (a b c : R) :
  -1 <= a <= 1 -> -1 <= b <= 1 -> -1 <= c <= 1 -> -1 <= a * b * c <= 1.
Proof.
  intros Ha Hb Hc.
  assert (Hab : -1 <= a * b <= 1) by nra.
  nra.
Qed.

Lemma product2_bound (a b : R) :
  -1 <= a <= 1 -> -1 <= b <= 1 -> -1 <= a * b <= 1.
Proof. intros Ha Hb. nra. Qed.

Lemma WebGPU_displacement_bound (v : Vector3.t) :
  -0.105 <= WebGPUGlobe.displacement v <= 0.105.
Proof.
  unfold WebGPUGlobe.displacement.
  pose proof (product3_bound _ _ _ (SIN_bound (Vector3.x v * 8))
                (COS_bound (Vector3.y v * 8)) (SIN_bound (Vector3.z v * 8))).
  pose proof (product3_bound _ _ _ (SIN_bound (Vector3.x v * 16))
                (COS_bound (Vector3.y v * 16)) (SIN_bound (Vector3.z v * 16))).
  pose proof (product3_bound _ _ _ (SIN_bound (Vector3.x v * 4))
                (COS_bound (Vector3.y v * 4)) (SIN_bound (Vector3.z v * 4))).
  cbv zeta. lra.
Qed.

Lemma LowPoly_displacement_bound (v : Vector3.t) :
  -0.2 <= LowPolyGlobe.displacement v + LowPolyGlobe.largeDisplacement v <= 0.2.
Proof.
  unfold LowPolyGlobe.displacement, LowPolyGlobe.largeDisplacement.
  pose proof (product3_bound _ _ _ (SIN_bound (Vector3.x v * 4))
                (COS_bound (Vector3.y v * 4)) (SIN_bound (Vector3.z v * 4))).
  pose proof (product2_bound _ _ (SIN_bound (Vector3.x v * 2))
                (SIN_bound (Vector3.y v * 2))).
  cbv zeta. lra.
Qed.

(** In the advanced renderer, whose sphere has base radius 1, a displaced
    vertex lies at [baseRadius * (1 + displacement)]. *)
Lemma WebGPU_displaced_radius (v : Vector3.t) :
  Vector3.length v <> 0 ->
  Vector3.length (WebGPUGlobe.displaced v)
  = WebGPUGlobe.baseRadius * (1 + WebGPUGlobe.displacement v).
Proof.
  intros Hv. pose proof (WebGPU_displacement_bound v).
  unfold WebGPUGlobe.displaced, WebGPUGlobe.baseRadius.
  rewrite length_rescaled by (assumption || lra). ring.
Qed.

(** In the low-poly globe the normalisation discards the radius the
    sphere was built with: a displaced vertex lies at [1 + sum], not at
    [baseRadius * (1 + sum)]. *)
Lemma LowPoly_displaced_radius (v : Vector3.t) :
  Vector3.length v <> 0 ->
  Vector3.length (LowPolyGlobe.displaced v)
  = 1 + LowPolyGlobe.displacement v + LowPolyGlobe.largeDisplacement v.
Proof.
  intros Hv. pose proof (LowPoly_displacement_bound v).
  unfold LowPolyGlobe.displaced.
  rewrite length_rescaled by (assumption || lra). ring.
Qed.

Lemma LowPoly_radius_differs (v : Vector3.t) :
  Vector3.length v <> 0 ->
  Vector3.length (LowPolyGlobe.displaced v)
  <> LowPolyGlobe.baseRadius
     * (1 + (LowPolyGlobe.displacement v + LowPolyGlobe.largeDisplacement v)).
Proof.
  intros Hv. rewrite LowPoly_displaced_radius by exact Hv.
  pose proof (LowPoly_displacement_bound v).
  unfold LowPolyGlobe.baseRadius. lra.
Qed.

(** ** The geometry the two procedural globes build *)

Lemma fromArray_buffer (vs : list Vector3.t) :
  forall i : nat, Vector3.fromArray (Vector3.buffer vs) (3 * i) = vs !! i.
Proof.
  induction vs as [|v vs IH]; intros i.
  - unfold Vector3.fromArray; simpl. now rewrite lookup_nil.
  - destruct i as [|i].
    + simpl. now destruct v.
    + replace (3 * S i)%nat with (S (S (S (3 * i)))) by lia.
      change ((v :: vs) !! S i) with (vs !! i).
      rewrite <- (IH i). unfold Vector3.fromArray.
      cbn [Vector3.buffer Nat.add].
      reflexivity.
Qed.

Lemma lookup_map {A B : Type} (f : A -> B) (l : list A) :
  forall i : nat, map f l !! i = option_map f (l !! i).
Proof.
  induction l as [|a l IH]; intros [|i]; simpl; try reflexivity.
  apply IH.
Qed.

Lemma WebGPU_geometry_spec (SphereGeometry : SphereGeometryT) (isWebGPU : bool) (g : Rng) :
  let vertices := map WebGPUGlobe.displaced
                      (SphereGeometry WebGPUGlobe.baseRadius
                         (WebGPUGlobe.widthSegments isWebGPU)
                         (WebGPUGlobe.heightSegments isWebGPU)) in
  WebGPUGlobe.geometry SphereGeometry isWebGPU g
  = (Normal (mkGeometry (Vector3.buffer vertices)
                        (Some (Vector3.buffer (map WebGPUGlobe.vertexColor vertices)))),
     g).
Proof.
  unfold WebGPUGlobe.geometry; cbv zeta.
  now rewrite displaceLoop_spec, colorLoop_spec.
Qed.

Lemma LowPoly_geometry_spec (SphereGeometry : SphereGeometryT) (g : Rng) :
  LowPolyGlobe.geometry SphereGeometry g
  = (Normal (mkGeometry
               (Vector3.buffer (map LowPolyGlobe.displaced
                                    (SphereGeometry LowPolyGlobe.baseRadius 12%nat 8%nat)))
               None),
     g).
Proof.
  unfold LowPolyGlobe.geometry; cbv zeta.
  now rewrite displaceLoop_spec.
Qed.

(** ** The pole vertex *)

Lemma length_northPole (r : R) : 0 <= r -> Vector3.length (northPole r) = r.
Proof.
  intros Hr. unfold Vector3.length, northPole; simpl.
  replace (0 * 0 + r * r + 0 * 0) with (r * r) by ring.
  now apply sqrt_square.
Qed.

Lemma normalize_northPole (r : R) : 0 < r -> Vector3.normalize (northPole r) = northPole 1.
Proof.
  intros Hr. unfold Vector3.normalize.
  rewrite length_northPole by lra.
  destruct (Req_dec_T r 0) as [E|_]; [lra|].
  unfold Vector3.divideScalar, Vector3.multiplyScalar, northPole; simpl.
  f_equal; field; lra.
Qed.

Lemma WebGPU_displacement_pole (r : R) : WebGPUGlobe.displacement (northPole r) = 0.
Proof.
  unfold WebGPUGlobe.displacement, northPole; simpl.
  rewrite !Rmult_0_l, sin_0. ring.
Qed.

Lemma LowPoly_displacement_pole (r : R) :
  LowPolyGlobe.displacement (northPole r) = 0
  /\ LowPolyGlobe.largeDisplacement (northPole r) = 0.
Proof.
  unfold LowPolyGlobe.displacement, LowPolyGlobe.largeDisplacement, northPole; simpl.
  rewrite !Rmult_0_l, sin_0. split; ring.
Qed.

Lemma WebGPU_displaced_pole : WebGPUGlobe.displaced (northPole 1) = northPole 1.
Proof.
  unfold WebGPUGlobe.displaced.
  rewrite WebGPU_displacement_pole, normalize_northPole by lra.
  unfold Vector3.multiplyScalar, northPole; simpl. f_equal; ring.
Qed.

Lemma LowPoly_displaced_pole : LowPolyGlobe.displaced (northPole 2) = northPole 1.
Proof.
  unfold LowPolyGlobe.displaced.
  destruct (LowPoly_displacement_pole 2) as [-> ->].
  rewrite normalize_northPole by lra.
  unfold Vector3.multiplyScalar, northPole; simpl. f_equal; ring.
Qed.

Lemma vertexColor_pole : WebGPUGlobe.vertexColor (northPole 1) = WebGPUGlobe.ocean.
Proof.
  unfold WebGPUGlobe.vertexColor, WebGPUGlobe.elevationOf.
  rewrite length_northPole by lra.
  destruct (Rlt_dec 0.01 (1 - 1)) as [H|_]; [lra|reflexivity].
Qed.

(** ** Claims about the procedural geometry *)

(** C2, counterexample.  The pole of the advanced renderer's unit sphere
    has latitude 1, above the 0.8 threshold, and elevation 0: the colour
    loop stores the ocean colour for it, not the snow colour. *)
Lemma C2_polar_vertex_is_ocean :
  fst (WebGPUGlobe.geometry poleOnly false noRandom)
  = Normal (mkGeometry [0; 1; 0] (Some [0.1; 0.3; 0.6]))
  /\ 0.8 < WebGPUGlobe.latitudeOf (Vector3.mk 0 1 0)
  /\ [0.1; 0.3; 0.6] <> Vector3.buffer [WebGPUGlobe.snow].
Proof.
  split; [|split].
  - rewrite WebGPU_geometry_spec. unfold poleOnly; simpl map.
    unfold WebGPUGlobe.baseRadius.
    rewrite WebGPU_displaced_pole, vertexColor_pole. reflexivity.
  - unfold WebGPUGlobe.latitudeOf; simpl. rewrite Rabs_pos_eq; lra.
  - simpl. intros H. injection H as H1 H2 H3. lra.
Qed.

(** C2, as amended.  In the geometry the advanced renderer builds, the
    colour stored for a vertex is the snow colour when its absolute
    height-axis component exceeds 0.8 and its elevation exceeds the ocean
    threshold 0.01; it is the ocean colour when its elevation is at or below
    that threshold, whatever its latitude; and it is the land colour of its
    elevation in the remaining case: the snow test is made on land only. *)
Theorem C2_snow_on_polar_land_only
    (SphereGeometry : SphereGeometryT) (isWebGPU : bool) (g : Rng)
    (i : nat) (v : Vector3.t) :
  map WebGPUGlobe.displaced
      (SphereGeometry WebGPUGlobe.baseRadius
         (WebGPUGlobe.widthSegments isWebGPU) (WebGPUGlobe.heightSegments isWebGPU))
    !! i = Some v ->
  exists (positions colors : list R) (c : Vector3.t),
    fst (WebGPUGlobe.geometry SphereGeometry isWebGPU g)
    = Normal (mkGeometry positions (Some colors))
    /\ Vector3.fromArray positions (3 * i) = Some v
    /\ Vector3.fromArray colors (3 * i) = Some c
    /\ (0.8 < WebGPUGlobe.latitudeOf v -> 0.01 < WebGPUGlobe.elevationOf v ->
        c = WebGPUGlobe.snow)
    /\ (WebGPUGlobe.elevationOf v <= 0.01 -> c = WebGPUGlobe.ocean)
    /\ (WebGPUGlobe.latitudeOf v <= 0.8 -> 0.01 < WebGPUGlobe.elevationOf v ->
        c = WebGPUGlobe.land (WebGPUGlobe.elevationOf v)).
Proof.
  intros Hv.
  eexists _, _, (WebGPUGlobe.vertexColor v).
  rewrite WebGPU_geometry_spec. cbv zeta. simpl fst.
  split; [reflexivity|].
  rewrite !fromArray_buffer.
  split; [exact Hv|].
  split; [now rewrite lookup_map, Hv|].
  unfold WebGPUGlobe.vertexColor.
  split; [|split].
  - intros Hlat He.
    destruct (Rlt_dec 0.01 (WebGPUGlobe.elevationOf v)) as [_|N]; [|contradiction].
    destruct (Rlt_dec 0.8 (WebGPUGlobe.latitudeOf v)) as [_|N]; [reflexivity|contradiction].
  - intros He.
    destruct (Rlt_dec 0.01 (WebGPUGlobe.elevationOf v)) as [H|_]; [lra|reflexivity].
  - intros Hlat He.
    destruct (Rlt_dec 0.01 (WebGPUGlobe.elevationOf v)) as [_|N]; [|contradiction].
    destruct (Rlt_dec 0.8 (WebGPUGlobe.latitudeOf v)) as [H|_]; [lra|reflexivity].
Qed.

Lemma C2_snow_on_polar_land_only_witness :
  exists (positions colors : list R),
    fst (WebGPUGlobe.geometry poleOnly false noRandom)
    = Normal (mkGeometry positions (Some colors))
    /\ Vector3.fromArray positions 0 = Some (northPole 1)
    /\ Vector3.fromArray colors 0 = Some WebGPUGlobe.ocean.
Proof.
  destruct (C2_snow_on_polar_land_only poleOnly false noRandom 0 (northPole 1))
    as (positions & colors & c & Hgeo & Hpos & Hcol & _ & Hocean & _).
  - change (Some (WebGPUGlobe.displaced (northPole 1)) = Some (northPole 1)).
    now rewrite WebGPU_displaced_pole.
  - exists positions, colors.
    rewrite Hocean in Hcol
      by (unfold WebGPUGlobe.elevationOf; rewrite length_northPole; lra).
    split; [exact Hgeo|]. split; [exact Hpos|exact Hcol].
Defined.

(** C3, at the failing input.  The low-poly globe asks three.js for a
    sphere of radius 2, whose pole is (0, 2, 0).  Both noise terms vanish
    there, so the claim puts the displaced pole at distance
    [2 * (1 + 0) = 2]; the loop stores (0, 1, 0), at distance 1. *)
Theorem C3_lowpoly_pole_radius :
  fst (LowPolyGlobe.geometry poleOnly noRandom) = Normal (mkGeometry [0; 1; 0] None)
  /\ Vector3.length (LowPolyGlobe.displaced (northPole 2)) = 1
  /\ LowPolyGlobe.baseRadius
     * (1 + (LowPolyGlobe.displacement (northPole 2)
             + LowPolyGlobe.largeDisplacement (northPole 2))) = 2.
Proof.
  split; [|split].
  - rewrite LowPoly_geometry_spec. unfold poleOnly, LowPolyGlobe.baseRadius; simpl map.
    rewrite LowPoly_displaced_pole. reflexivity.
  - rewrite LowPoly_displaced_pole. apply length_northPole. lra.
  - destruct (LowPoly_displacement_pole 2) as [-> ->].
    unfold LowPolyGlobe.baseRadius. ring.
Qed.

(** The star field of the advanced renderer does depend on the random
    source: the statement of C9 below is not one every builder of this
    file satisfies. *)
Lemma starField_depends_on_random :
  fst (WebGPUGlobe.starField 1 (fun _ => 0)) <> fst (WebGPUGlobe.starField 1 (fun _ => 1)).
Proof.
  unfold WebGPUGlobe.starField, WebGPUGlobe.stars, WebGPUGlobe.star.
  unfold mbind, mret, eff_bind, eff_ret, Math_random; simpl.
  unfold WebGPUGlobe.starColor.
  destruct (Rlt_dec 0 0.33) as [_|N]; [|lra].
  destruct (Rlt_dec 1 0.33) as [H|_]; [lra|].
  destruct (Rlt_dec 1 0.66) as [H|_]; [lra|].
  simpl. intros H. injection H as _ _ _ H2 H3. lra.
Qed.

(** C9.  The geometry of either procedural globe is the same whatever the
    state of the host's random source, which it leaves untouched: the
    position buffer is, vertex by vertex, the displacement of the vertex
    three.js generated, and the colour buffer is, vertex by vertex, the
    colour rule applied to the displaced vertex.  Equal base radius and
    segment counts therefore give equal positions and colours. *)
Theorem C9_geometry_deterministic
    (SphereGeometry : SphereGeometryT) (isWebGPU : bool) (g1 g2 : Rng) :
  fst (WebGPUGlobe.geometry SphereGeometry isWebGPU g1)
  = fst (WebGPUGlobe.geometry SphereGeometry isWebGPU g2)
  /\ snd (WebGPUGlobe.geometry SphereGeometry isWebGPU g1) = g1
  /\ fst (LowPolyGlobe.geometry SphereGeometry g1)
     = fst (LowPolyGlobe.geometry SphereGeometry g2)
  /\ snd (LowPolyGlobe.geometry SphereGeometry g1) = g1
  /\ fst (WebGPUGlobe.geometry SphereGeometry isWebGPU g1)
     = (let sphere := SphereGeometry WebGPUGlobe.baseRadius
                        (WebGPUGlobe.widthSegments isWebGPU)
                        (WebGPUGlobe.heightSegments isWebGPU) in
        Normal (mkGeometry
                  (Vector3.buffer (map WebGPUGlobe.displaced sphere))
                  (Some (Vector3.buffer
                           (map (fun v => WebGPUGlobe.vertexColor (WebGPUGlobe.displaced v))
                                sphere)))))
  /\ fst (LowPolyGlobe.geometry SphereGeometry g1)
     = Normal (mkGeometry
                 (Vector3.buffer (map LowPolyGlobe.displaced
                                      (SphereGeometry LowPolyGlobe.baseRadius 12%nat 8%nat)))
                 None).
Proof.
  rewrite !WebGPU_geometry_spec, !LowPoly_geometry_spec. cbv zeta. simpl fst; simpl snd.
  repeat split.
  now rewrite map_map.
Qed.

(** ** Claims about the interaction state *)

(** C1, counterexample.  After a country was clicked on the 2D map, Reset
    View leaves it selected, whereas the initial selection is empty. *)
Lemma C1_reset_keeps_selection :
  Projection2DGlobe.selectedCountry
    (Projection2DGlobe.resetView
       (Projection2DGlobe.handleCountryClick france Projection2DGlobe.initial))
  = Some france
  /\ Projection2DGlobe.selectedCountry Projection2DGlobe.initial = None.
Proof. split; reflexivity. Qed.

(** C1, as amended.  For every interaction state of the 2D map, Reset
    View returns the rotation to (0, 0, 0) (with the rest of the projection
    configuration) and the zoom factor to 1, and leaves the hovered
    feature, the selected feature and the auto-rotate flag unchanged. *)
Theorem C1_resetView_resets_the_view_only (st : Projection2DGlobe.State) :
  let st' := Projection2DGlobe.resetView st in
  Projection2DGlobe.rotate (Projection2DGlobe.projectionConfig st') = (0, 0, 0)
  /\ Projection2DGlobe.projectionConfig st'
     = Projection2DGlobe.projectionConfig Projection2DGlobe.initial
  /\ Projection2DGlobe.zoom st' = 1
  /\ Projection2DGlobe.zoom st' = Projection2DGlobe.zoom Projection2DGlobe.initial
  /\ Projection2DGlobe.hoveredCountry st' = Projection2DGlobe.hoveredCountry st
  /\ Projection2DGlobe.selectedCountry st' = Projection2DGlobe.selectedCountry st
  /\ Projection2DGlobe.isRotating st' = Projection2DGlobe.isRotating st.
Proof. cbv zeta. repeat split. Qed.

(** On the accurate globes nothing that happens after mount writes the
    controls' auto-rotation. *)
Lemma AccurateGlobeBase_load_autoRotate (fetch : Fetch) (st : AccurateGlobeBase.State) :
  AccurateGlobeBase.autoRotate (snd (AccurateGlobeBase.loadCountryData fetch st))
  = AccurateGlobeBase.autoRotate st.
Proof.
  unfold AccurateGlobeBase.loadCountryData, try_catch, mbind, eff_bind, update, await, throw.
  destruct (fetch AccurateGlobeBase.dataURL) as [[success code [features|failure]]|failure];
    try destruct success; reflexivity.
Qed.

Lemma AccurateGlobe_load_autoRotate (fetch : Fetch) (st : AccurateGlobe.State) :
  AccurateGlobe.autoRotate (snd (AccurateGlobe.loadCountryData fetch st))
  = AccurateGlobe.autoRotate st.
Proof.
  unfold AccurateGlobe.loadCountryData, try_catch, mbind, eff_bind, update, await, throw.
  destruct (fetch AccurateGlobe.dataURL) as [[success code [features|failure]]|failure];
    try destruct success; reflexivity.
Qed.

Lemma AccurateGlobeBase_dispatch_autoRotate
    (st : AccurateGlobeBase.State) (e : AccurateGlobeBase.Event) :
  AccurateGlobeBase.autoRotate (AccurateGlobeBase.dispatch st e)
  = AccurateGlobeBase.autoRotate st.
Proof.
  unfold AccurateGlobeBase.dispatch, AccurateGlobeBase.attachRef, AccurateGlobeBase.setGlobeEl.
  cbn [AccurateGlobeBase.autoRotate].
  destruct e as [fetch|polygon|polygon|].
  - apply AccurateGlobeBase_load_autoRotate.
  - unfold AccurateGlobeBase.handleCountryClick.
    now destruct (AccurateGlobeBase.canZoomTo _ _).
  - reflexivity.
  - reflexivity.
Qed.

Lemma AccurateGlobe_dispatch_autoRotate
    (st : AccurateGlobe.State) (e : AccurateGlobe.Event) :
  AccurateGlobe.autoRotate (AccurateGlobe.dispatch st e) = AccurateGlobe.autoRotate st.
Proof.
  unfold AccurateGlobe.dispatch, AccurateGlobe.attachRef, AccurateGlobe.setGlobeEl.
  cbn [AccurateGlobe.autoRotate].
  destruct e as [fetch|polygon|polygon|]; try reflexivity.
  apply AccurateGlobe_load_autoRotate.
Qed.

(** The effect that would switch auto-rotation on runs once, at mount,
    while the loading placeholder is rendered and the ref is unset: in no
    state that either accurate globe reaches is auto-rotation active. *)
Lemma AccurateGlobeBase_never_rotates (events : list AccurateGlobeBase.Event) :
  AccurateGlobeBase.autoRotate (AccurateGlobeBase.run events) = false.
Proof.
  unfold AccurateGlobeBase.run.
  assert (G : forall st, AccurateGlobeBase.autoRotate
                           (fold_left AccurateGlobeBase.dispatch events st)
                         = AccurateGlobeBase.autoRotate st).
  { induction events as [|e events IH]; intros st; [reflexivity|].
    cbn [fold_left]. rewrite IH. apply AccurateGlobeBase_dispatch_autoRotate. }
  rewrite G. reflexivity.
Qed.

Lemma AccurateGlobe_never_rotates (events : list AccurateGlobe.Event) :
  AccurateGlobe.autoRotate (AccurateGlobe.run events) = false.
Proof.
  unfold AccurateGlobe.run.
  assert (G : forall st, AccurateGlobe.autoRotate (fold_left AccurateGlobe.dispatch events st)
                         = AccurateGlobe.autoRotate st).
  { induction events as [|e events IH]; intros st; [reflexivity|].
    cbn [fold_left]. rewrite IH. apply AccurateGlobe_dispatch_autoRotate. }
  rewrite G. reflexivity.
Qed.

(** C4.  In every renderer that has a select operation, performing
    select(feature) in a state in which auto-rotation is active sets the
    selected feature and leaves auto-rotation off.  On the 2D map the click
    handler switches the rotation flag off.  On both accurate globes, in
    every state reached from mount through the arrival of the data, clicks,
    hovers and Clear Selection, auto-rotation is not active in the first
    place (the effect that would switch it on runs once, while the loading
    placeholder is rendered and the ref is unset); the click sets the
    selected feature and auto-rotation is off after it.  The two procedural
    globes draw no features and have no select operation. *)
Theorem C4_select_leaves_auto_rotation_off
    (feature : CountryFeature)
    (map2d : Projection2DGlobe.State)
    (globeEvents : list AccurateGlobeBase.Event)
    (paletteEvents : list AccurateGlobe.Event) :
  Projection2DGlobe.isRotating map2d = true ->
  (Projection2DGlobe.selectedCountry (Projection2DGlobe.handleCountryClick feature map2d)
   = Some feature
   /\ Projection2DGlobe.isRotating (Projection2DGlobe.handleCountryClick feature map2d)
      = false)
  /\ (let globe := AccurateGlobeBase.run globeEvents in
      AccurateGlobeBase.autoRotate globe = false
      /\ AccurateGlobeBase.selectedCountry (AccurateGlobeBase.handleCountryClick feature globe)
         = Some feature
      /\ AccurateGlobeBase.autoRotate (AccurateGlobeBase.handleCountryClick feature globe)
         = false)
  /\ (let globe := AccurateGlobe.run paletteEvents in
      AccurateGlobe.autoRotate globe = false
      /\ AccurateGlobe.selectedCountry (AccurateGlobe.handleCountryClick feature globe)
         = Some feature
      /\ AccurateGlobe.autoRotate (AccurateGlobe.handleCountryClick feature globe)
         = false).
Proof.
  intros _. cbv zeta.
  pose proof (AccurateGlobeBase_never_rotates globeEvents) as Hglobe.
  pose proof (AccurateGlobe_never_rotates paletteEvents) as Hpalette.
  split; [split; reflexivity|].
  split; (split; [assumption|]); split; try reflexivity; try exact Hpalette.
  - unfold AccurateGlobeBase.handleCountryClick.
    now destruct (AccurateGlobeBase.canZoomTo _ _).
  - unfold AccurateGlobeBase.handleCountryClick.
    destruct (AccurateGlobeBase.canZoomTo _ _); exact Hglobe.
Qed.

Lemma C4_select_leaves_auto_rotation_off_witness :
  Projection2DGlobe.isRotating rotatingMap = true
  /\ Projection2DGlobe.selectedCountry (Projection2DGlobe.handleCountryClick france rotatingMap)
     = Some france
  /\ Projection2DGlobe.isRotating (Projection2DGlobe.handleCountryClick france rotatingMap)
     = false
  /\ AccurateGlobe.selectedCountry (AccurateGlobe.handleCountryClick france loadedPaletteGlobe)
     = Some france.
Proof.
  destruct (C4_select_leaves_auto_rotation_off
              france rotatingMap
              [AccurateGlobeBase.DataArrived fetchFrance]
              [AccurateGlobe.DataArrived fetchFrance] eq_refl)
    as ((Hselected & Hmap) & _ & (_ & Hpalette & _)).
  split; [reflexivity|]. split; [exact Hselected|]. split; [exact Hmap|exact Hpalette].
Defined.

(** *** Zoom *)


Lemma zoomBy_unclamped (f z : R) :
  0.5 <= z * f <= 3 -> Projection2DGlobe.zoomBy f z = z * f.
Proof.
  intros H. unfold Projection2DGlobe.zoomBy, Rmax, Rmin.
  repeat destruct (Rle_dec _ _); lra.
Qed.

(** C6, counterexample.  From zoom 3, one wheel notch in (factor 1.1, held
    at the upper bound 3) and one notch out (factor 0.9) give 2.7, while
    the single factor 1.1 * 0.9 gives 2.97. *)
Lemma C6_zoom_does_not_compose_at_the_bound :
  0.5 <= 3 <= 3
  /\ Projection2DGlobe.zoomBy 0.9 (Projection2DGlobe.zoomBy 1.1 3) = 2.7
  /\ Projection2DGlobe.zoomBy (1.1 * 0.9) 3 = 2.97
  /\ Projection2DGlobe.zoomBy 0.9 (Projection2DGlobe.zoomBy 1.1 3)
     <> Projection2DGlobe.zoomBy (1.1 * 0.9) 3.
Proof.
  assert (H1 : Projection2DGlobe.zoomBy 0.9 (Projection2DGlobe.zoomBy 1.1 3) = 2.7).
  { unfold Projection2DGlobe.zoomBy, Rmax, Rmin. repeat destruct (Rle_dec _ _); lra. }
  assert (H2 : Projection2DGlobe.zoomBy (1.1 * 0.9) 3 = 2.97).
  { unfold Projection2DGlobe.zoomBy, Rmax, Rmin. repeat destruct (Rle_dec _ _); lra. }
  split; [lra|]. split; [exact H1|]. split; [exact H2|].
  rewrite H1, H2. lra.
Qed.

(** The same on the component's state: two wheel events against the one
    combined factor. *)
Lemma wheel_in_then_out_from_the_bound (st : Projection2DGlobe.State) :
  Projection2DGlobe.zoom st = 3 ->
  Projection2DGlobe.zoom
    (Projection2DGlobe.handleWheel 1 (Projection2DGlobe.handleWheel (-1) st)) = 2.7.
Proof.
  intros Hz. unfold Projection2DGlobe.handleWheel; simpl.
  destruct (Rlt_dec 0 1) as [_|N]; [|lra].
  destruct (Rlt_dec 0 (-1)) as [H|_]; [lra|].
  rewrite Hz.
  unfold Projection2DGlobe.zoomBy, Rmax, Rmin. repeat destruct (Rle_dec _ _); lra.
Qed.

(** C6, as amended.  For a zoom value in [0.5, 3], zooming by f1 and then
    by f2 gives the same clamped zoom as zooming by f1 * f2 once, provided
    the intermediate value z * f1 is itself within [0.5, 3], or both
    factors zoom in (f1, f2 >= 1), or both zoom out (0 <= f1, f2 <= 1).  The
    two results differ when the first step is cut at the upper bound
    (z * f1 > 3) and 1/6 <= f2 < 1, and when it is cut at the lower bound
    (z * f1 < 0.5) and 1 < f2 <= 6. *)
Theorem C6_zoom_composes_away_from_the_bound (f1 f2 z : R) :
  0.5 <= z <= 3 ->
  (0.5 <= z * f1 <= 3 \/ (1 <= f1 /\ 1 <= f2) \/ (0 <= f1 <= 1 /\ 0 <= f2 <= 1) ->
   Projection2DGlobe.zoomBy f2 (Projection2DGlobe.zoomBy f1 z)
   = Projection2DGlobe.zoomBy (f1 * f2) z)
  /\ (3 < z * f1 -> 1 / 6 <= f2 < 1 ->
      Projection2DGlobe.zoomBy f2 (Projection2DGlobe.zoomBy f1 z)
      <> Projection2DGlobe.zoomBy (f1 * f2) z)
  /\ (z * f1 < 0.5 -> 1 < f2 <= 6 ->
      Projection2DGlobe.zoomBy f2 (Projection2DGlobe.zoomBy f1 z)
      <> Projection2DGlobe.zoomBy (f1 * f2) z).
Proof.
  intros Hz.
  unfold Projection2DGlobe.zoomBy, Rmax, Rmin.
  split; [|split].
  - intros [Hmid|[[Ha Hb]|[Ha Hb]]];
      repeat destruct (Rle_dec _ _); try lra; try nra.
  - intros Hcut Hf2.
    assert (Hprod : 3 * f2 < z * f1 * f2) by nra.
    replace (z * (f1 * f2)) with (z * f1 * f2) by ring.
    repeat destruct (Rle_dec _ _); try lra; try nra.
  - intros Hcut Hf2.
    assert (Hprod : z * f1 * f2 < 0.5 * f2) by nra.
    replace (z * (f1 * f2)) with (z * f1 * f2) by ring.
    repeat destruct (Rle_dec _ _); try lra; try nra.
Qed.

Lemma C6_zoom_composes_away_from_the_bound_witness :
  Projection2DGlobe.zoomBy 0.9 (Projection2DGlobe.zoomBy 1.1 1)
  = Projection2DGlobe.zoomBy (1.1 * 0.9) 1
  /\ Projection2DGlobe.zoomBy 0.5 (Projection2DGlobe.zoomBy 1.1 3)
     <> Projection2DGlobe.zoomBy (1.1 * 0.5) 3
  /\ Projection2DGlobe.zoomBy 2 (Projection2DGlobe.zoomBy 0.9 0.5)
     <> Projection2DGlobe.zoomBy (0.9 * 2) 0.5.
Proof.
  split; [|split].
  - destruct (C6_zoom_composes_away_from_the_bound 1.1 0.9 1) as (H & _ & _); [lra|].
    apply H. left. lra.
  - destruct (C6_zoom_composes_away_from_the_bound 1.1 0.5 3) as (_ & H & _); [lra|].
    apply H; lra.
  - destruct (C6_zoom_composes_away_from_the_bound 0.9 2 0.5) as (_ & _ & H); [lra|].
    apply H; lra.
Defined.

(** ** Claims about loading and capability detection *)

(** The detection always completes, and what it records can be read off
    the host. *)
Lemma checkWebGPU_run (host : WebGPUGlobe.Host) (st : WebGPUGlobe.State) :
  WebGPUGlobe.checkWebGPU host st
  = (Normal tt,
     WebGPUGlobe.mkState (Some (WebGPUGlobe.detects host)) false
                         (WebGPUGlobe.performanceStats st)).
Proof.
  destruct host as [probe sample].
  destruct probe as [[[[[adapter|]|message]]|]|]; destruct sample as [[]|failure];
    reflexivity.
Qed.

Lemma probeFails_detects (host : WebGPUGlobe.Host) :
  WebGPUGlobe.probeFails host -> WebGPUGlobe.detects host = false.
Proof.
  unfold WebGPUGlobe.detects.
  intros [Habsent|[Hfalsy|[(g & Hgpu & Hnull)|(g & message & Hgpu & Hrequest)]]].
  - now rewrite Habsent.
  - now rewrite Hfalsy.
  - now rewrite Hgpu, Hnull.
  - now rewrite Hgpu, Hrequest.
Qed.

(** C7.  For every host and every state, the detection completes
    normally, with the loading flag cleared; whenever the probe is absent,
    unavailable (falsy, or resolving to no adapter) or throws, it has
    recorded [false], the tier is basic, and the geometry the globe then
    builds is made from the sphere three.js generates for 64 x 32 segments;
    under the advanced tier it is made from the sphere for 128 x 64
    segments. *)
Theorem C7_detection_never_fails
    (host : WebGPUGlobe.Host) (st : WebGPUGlobe.State)
    (SphereGeometry : SphereGeometryT) (g : Rng) :
  exists st' : WebGPUGlobe.State,
    WebGPUGlobe.checkWebGPU host st = (Normal tt, st')
    /\ WebGPUGlobe.isLoading st' = false
    /\ (WebGPUGlobe.probeFails host ->
        WebGPUGlobe.isWebGPU st' = Some false
        /\ WebGPUGlobe.tier st' = WebGPUGlobe.basic
        /\ WebGPUGlobe.widthSegments (WebGPUGlobe.isWebGPUProp st') = 64%nat
        /\ WebGPUGlobe.heightSegments (WebGPUGlobe.isWebGPUProp st') = 32%nat
        /\ WebGPUGlobe.geometry SphereGeometry (WebGPUGlobe.isWebGPUProp st') g
           = (let sphere := map WebGPUGlobe.displaced
                                (SphereGeometry WebGPUGlobe.baseRadius 64%nat 32%nat) in
              (Normal (mkGeometry (Vector3.buffer sphere)
                         (Some (Vector3.buffer (map WebGPUGlobe.vertexColor sphere)))),
               g)))
    /\ (WebGPUGlobe.tier st' = WebGPUGlobe.advanced ->
        WebGPUGlobe.widthSegments (WebGPUGlobe.isWebGPUProp st') = 128%nat
        /\ WebGPUGlobe.heightSegments (WebGPUGlobe.isWebGPUProp st') = 64%nat
        /\ WebGPUGlobe.geometry SphereGeometry (WebGPUGlobe.isWebGPUProp st') g
           = (let sphere := map WebGPUGlobe.displaced
                                (SphereGeometry WebGPUGlobe.baseRadius 128%nat 64%nat) in
              (Normal (mkGeometry (Vector3.buffer sphere)
                         (Some (Vector3.buffer (map WebGPUGlobe.vertexColor sphere)))),
               g))).
Proof.
  eexists. split; [apply checkWebGPU_run|].
  split; [reflexivity|].
  unfold WebGPUGlobe.tier, WebGPUGlobe.isWebGPUProp; simpl.
  split.
  - intros Hfails. rewrite (probeFails_detects host Hfails).
    rewrite WebGPU_geometry_spec. repeat split.
  - destruct (WebGPUGlobe.detects host); [|discriminate].
    intros _. rewrite WebGPU_geometry_spec. repeat split.
Qed.

Lemma C7_detection_never_fails_witness :
  exists st' : WebGPUGlobe.State,
    WebGPUGlobe.checkWebGPU rejectingHost WebGPUGlobe.initial = (Normal tt, st')
    /\ WebGPUGlobe.isWebGPU st' = Some false
    /\ WebGPUGlobe.widthSegments (WebGPUGlobe.isWebGPUProp st') = 64%nat
    /\ WebGPUGlobe.heightSegments (WebGPUGlobe.isWebGPUProp st') = 32%nat
    /\ fst (WebGPUGlobe.geometry poleOnly (WebGPUGlobe.isWebGPUProp st') noRandom)
       = Normal (mkGeometry
                   (Vector3.buffer (map WebGPUGlobe.displaced [northPole 1]))
                   (Some (Vector3.buffer
                            (map WebGPUGlobe.vertexColor
                                 (map WebGPUGlobe.displaced [northPole 1]))))).
Proof.
  destruct (C7_detection_never_fails rejectingHost WebGPUGlobe.initial poleOnly noRandom)
    as (st' & Hrun & _ & Hfails & _).
  destruct Hfails as (Hflag & _ & Hwidth & Hheight & Hgeometry).
  - right; right; right. exists (WebGPUGlobe.mkGPU (Throw "requestAdapter rejected")).
    eexists. split; reflexivity.
  - exists st'. split; [exact Hrun|]. split; [exact Hflag|].
    split; [exact Hwidth|]. split; [exact Hheight|].
    rewrite Hgeometry. reflexivity.
Defined.

(** C8.  When the dataset fetch answers with a non-success status, the
    loader of the 2D map completes without throwing, in a state that
    carries the error description and is no longer loading; the country
    list is what it was (empty, after mount); and the component renders the
    error placeholder, not the visualization. *)
Theorem C8_failed_fetch_shows_the_error
    (fetch : Fetch) (response : Response) (st : Projection2DGlobe.State) :
  fetch Projection2DGlobe.dataURL = Normal response ->
  ok response = false ->
  exists st' : Projection2DGlobe.State,
    Projection2DGlobe.loadCountryData fetch st = (Normal tt, st')
    /\ Projection2DGlobe.error st' = Some loadFailed
    /\ Projection2DGlobe.isLoading st' = false
    /\ Projection2DGlobe.countries st' = Projection2DGlobe.countries st
    /\ Projection2DGlobe.render st' = ErrorPlaceholder loadFailed.
Proof.
  intros Hfetch Hok.
  unfold Projection2DGlobe.loadCountryData, try_catch, mbind, eff_bind, update, await.
  rewrite Hfetch, Hok. simpl.
  eexists. split; [reflexivity|]. repeat split.
Qed.

Lemma C8_failed_fetch_shows_the_error_witness :
  exists st' : Projection2DGlobe.State,
    Projection2DGlobe.loadCountryData fetch404 Projection2DGlobe.initial = (Normal tt, st')
    /\ Projection2DGlobe.countries st' = []
    /\ Projection2DGlobe.render st' = ErrorPlaceholder loadFailed.
Proof.
  destruct (C8_failed_fetch_shows_the_error fetch404 notFound Projection2DGlobe.initial)
    as (st' & Hrun & _ & _ & Hcountries & Hview); try reflexivity.
  exists st'. split; [exact Hrun|]. split; [exact Hcountries|exact Hview].
Defined.

(** The two accurate globes run the same loader. *)
Lemma AccurateGlobe_failed_fetch
    (fetch : Fetch) (response : Response) (st : AccurateGlobe.State) :
  fetch AccurateGlobe.dataURL = Normal response ->
  ok response = false ->
  exists st' : AccurateGlobe.State,
    AccurateGlobe.loadCountryData fetch st = (Normal tt, st')
    /\ AccurateGlobe.countries st' = AccurateGlobe.countries st
    /\ AccurateGlobe.render st' = ErrorPlaceholder loadFailed.
Proof.
  intros Hfetch Hok.
  unfold AccurateGlobe.loadCountryData, try_catch, mbind, eff_bind, update, await.
  rewrite Hfetch, Hok. simpl.
  eexists. split; [reflexivity|]. repeat split.
Qed.

(** A rejected fetch and a malformed payload end in the same state. *)
Lemma rejected_fetch_shows_the_error
    (fetch : Fetch) (message : string) (st : Projection2DGlobe.State) :
  fetch Projection2DGlobe.dataURL = Throw message ->
  exists st' : Projection2DGlobe.State,
    Projection2DGlobe.loadCountryData fetch st = (Normal tt, st')
    /\ Projection2DGlobe.render st' = ErrorPlaceholder loadFailed.
Proof.
  intros Hfetch.
  unfold Projection2DGlobe.loadCountryData, try_catch, mbind, eff_bind, update, await.
  rewrite Hfetch. simpl.
  eexists. split; reflexivity.
Qed.

(** ** Claims about the colour of a region *)

Example hash_XX : AccurateGlobe.hashCode (lit "XX") = 2816%Z.
Proof. reflexivity. Qed.

Lemma toInt32_range (z : Z) : (- 2 ^ 31 <= toInt32 z < 2 ^ 31)%Z.
Proof.
  unfold toInt32. pose proof (Z.mod_pos_bound z (2 ^ 32) eq_refl) as Hm.
  cbv zeta. destruct (Z.geb_spec (z mod 2 ^ 32) (2 ^ 31)); lia.
Qed.

Lemma hashStep_bound (hash c : Z) :
  (0 <= c < 65536)%Z ->
  (Z.abs (AccurateGlobe.hashStep hash c) <= Z.abs hash + (2 ^ 31 + 65535))%Z.
Proof.
  intros Hc. unfold AccurateGlobe.hashStep, shl.
  pose proof (toInt32_range (Z.shiftl (toInt32 hash) (Z.land 5 31))). lia.
Qed.

(** The hash stays an integer that a double holds exactly: its magnitude
    grows by less than 2^32 per code unit, so it is below 2^53 for every
    string of up to two million code units. *)
Lemma hashCode_bound (isoCode : jsstring) :
  Forall (fun c => 0 <= c < 65536)%Z isoCode ->
  (Z.abs (AccurateGlobe.hashCode isoCode)
   <= Z.of_nat (List.length isoCode) * (2 ^ 31 + 65535))%Z.
Proof.
  unfold AccurateGlobe.hashCode.
  assert (G : forall (s : jsstring) (h : Z),
             Forall (fun c => 0 <= c < 65536)%Z s ->
             (Z.abs (fold_left AccurateGlobe.hashStep s h)
              <= Z.abs h + Z.of_nat (List.length s) * (2 ^ 31 + 65535))%Z).
  { induction s as [|c s IH]; intros h Hs.
    - simpl. lia.
    - inversion Hs as [|? ? Hc Hs']; subst.
      cbn [fold_left]. specialize (IH (AccurateGlobe.hashStep h c) Hs').
      pose proof (hashStep_bound h c Hc).
      rewrite length_cons, Nat2Z.inj_succ. lia. }
  intros Hs. specialize (G isoCode 0%Z Hs). simpl Z.abs in G. lia.
Qed.

Lemma colorIndex_range (country : CountryFeature) :
  (0 <= AccurateGlobe.colorIndex country < 19)%Z.
Proof.
  unfold AccurateGlobe.colorIndex.
  change (Z.of_nat (List.length AccurateGlobe.COUNTRY_COLORS)) with 19%Z.
  apply Z.rem_bound_pos; lia.
Qed.

Lemma getCountryColor_lookup (country : CountryFeature) :
  AccurateGlobe.getCountryColor country
  = nth_error AccurateGlobe.COUNTRY_COLORS (Z.to_nat (AccurateGlobe.colorIndex country)).
Proof.
  unfold AccurateGlobe.getCountryColor.
  pose proof (colorIndex_range country) as H.
  destruct (AccurateGlobe.colorIndex country); try reflexivity; lia.
Qed.

(** C10.  For every country feature the palette index lies in [0, 19)
    and [getCountryColor] returns one of the 19 palette colours, never
    [undefined]; a feature with neither ISO_A2 nor ISO_A3 is hashed as
    'XX' and gets the palette's entry 4. *)
Theorem C10_getCountryColor_in_palette (country : CountryFeature) :
  (0 <= AccurateGlobe.colorIndex country < 19)%Z
  /\ (exists c : string,
        AccurateGlobe.getCountryColor country = Some c
        /\ In c AccurateGlobe.COUNTRY_COLORS)
  /\ (prop ISO_A2 country = None -> prop ISO_A3 country = None ->
      AccurateGlobe.isoCodeOf country = lit "XX"
      /\ AccurateGlobe.colorIndex country = 4%Z
      /\ AccurateGlobe.getCountryColor country = Some "#8fb3d9"%string).
Proof.
  pose proof (colorIndex_range country) as Hrange.
  split; [exact Hrange|]. split.
  - rewrite getCountryColor_lookup.
    destruct (nth_error AccurateGlobe.COUNTRY_COLORS
                (Z.to_nat (AccurateGlobe.colorIndex country))) as [c|] eqn:E.
    + exists c. split; [reflexivity|]. eapply nth_error_In; exact E.
    + apply nth_error_None in E. simpl in E. lia.
  - intros H2 H3.
    assert (Hiso : AccurateGlobe.isoCodeOf country = lit "XX").
    { unfold AccurateGlobe.isoCodeOf. now rewrite H2, H3. }
    assert (Hidx : AccurateGlobe.colorIndex country = 4%Z).
    { unfold AccurateGlobe.colorIndex. now rewrite Hiso. }
    split; [exact Hiso|]. split; [exact Hidx|].
    rewrite getCountryColor_lookup, Hidx. reflexivity.
Qed.

Lemma C10_getCountryColor_in_palette_witness :
  AccurateGlobe.isoCodeOf nameOnly = lit "XX"
  /\ AccurateGlobe.getCountryColor nameOnly = Some "#8fb3d9"%string.
Proof.
  destruct (C10_getCountryColor_in_palette nameOnly) as (_ & _ & Hfallback).
  destruct Hfallback as (Hiso & _ & Hcolor); try reflexivity.
  split; [exact Hiso|exact Hcolor].
Defined.

(** C5, counterexample.  On the 2D map France, neither selected nor
    hovered, is filled with the fixed colour #49ac8f; the hash of its ISO
    code "FR" folded over the palette gives entry 10, #577590. *)
Lemma C5_map_fill_ignores_the_iso_code :
  same_object (Projection2DGlobe.selectedCountry rotatingMap) france = false
  /\ same_object (Projection2DGlobe.hoveredCountry rotatingMap) france = false
  /\ Projection2DGlobe.defaultFill rotatingMap france = "#49ac8f"%string
  /\ AccurateGlobe.hashCode (lit "FR") = 2252%Z
  /\ AccurateGlobe.getCountryColor france = Some "#577590"%string.
Proof. repeat split. Qed.

(** C5, as amended.  For a feature that is neither selected nor hovered:
    on the accurate globe with the palette, the fill colour is the palette
    entry at [|hash(ISO code)| % 19], so two features with the same ISO code
    get the same colour in every state; on the accurate globe without the
    palette and on the 2D map, the fill is the fixed colour #49ac8f,
    whatever the ISO code. *)
Theorem C5_fill_of_a_plain_feature
    (feature : CountryFeature)
    (paletteGlobe : AccurateGlobe.State) (globe : AccurateGlobeBase.State)
    (map2d : Projection2DGlobe.State) :
  same_object (AccurateGlobe.selectedCountry paletteGlobe) feature = false ->
  same_object (AccurateGlobe.hoveredCountry paletteGlobe) feature = false ->
  same_object (AccurateGlobeBase.selectedCountry globe) feature = false ->
  same_object (AccurateGlobeBase.hoveredCountry globe) feature = false ->
  same_object (Projection2DGlobe.selectedCountry map2d) feature = false ->
  same_object (Projection2DGlobe.hoveredCountry map2d) feature = false ->
  AccurateGlobe.getPolygonCapColor paletteGlobe feature
  = nth_error AccurateGlobe.COUNTRY_COLORS
      (Z.to_nat (Z.rem (Z.abs (AccurateGlobe.hashCode (AccurateGlobe.isoCodeOf feature))) 19))
  /\ (forall (other : CountryFeature) (st : AccurateGlobe.State),
        AccurateGlobe.isoCodeOf other = AccurateGlobe.isoCodeOf feature ->
        same_object (AccurateGlobe.selectedCountry st) other = false ->
        same_object (AccurateGlobe.hoveredCountry st) other = false ->
        AccurateGlobe.getPolygonCapColor st other
        = AccurateGlobe.getPolygonCapColor paletteGlobe feature)
  /\ AccurateGlobeBase.getPolygonCapColor globe feature = "#49ac8f"%string
  /\ Projection2DGlobe.defaultFill map2d feature = "#49ac8f"%string.
Proof.
  intros Hs1 Hh1 Hs2 Hh2 Hs3 Hh3.
  assert (Hcap : forall (f : CountryFeature) (st : AccurateGlobe.State),
             same_object (AccurateGlobe.selectedCountry st) f = false ->
             same_object (AccurateGlobe.hoveredCountry st) f = false ->
             AccurateGlobe.getPolygonCapColor st f
             = nth_error AccurateGlobe.COUNTRY_COLORS
                 (Z.to_nat (Z.rem (Z.abs (AccurateGlobe.hashCode (AccurateGlobe.isoCodeOf f))) 19))).
  { intros f st Hs Hh. unfold AccurateGlobe.getPolygonCapColor.
    rewrite Hs, Hh. apply getCountryColor_lookup. }
  split; [apply Hcap; assumption|]. split.
  - intros other st Hiso Hs Hh.
    rewrite (Hcap other st Hs Hh), (Hcap feature paletteGlobe Hs1 Hh1), Hiso. reflexivity.
  - split.
    + unfold AccurateGlobeBase.getPolygonCapColor. cbv zeta. now rewrite Hs2, Hh2.
    + unfold Projection2DGlobe.defaultFill. cbv zeta. now rewrite Hs3, Hh3.
Qed.

Lemma C5_fill_of_a_plain_feature_witness :
  AccurateGlobe.getPolygonCapColor loadedPaletteGlobe france = Some "#577590"%string
  /\ AccurateGlobeBase.getPolygonCapColor loadedGlobe france = "#49ac8f"%string
  /\ Projection2DGlobe.defaultFill rotatingMap france = "#49ac8f"%string.
Proof.
  destruct (C5_fill_of_a_plain_feature france loadedPaletteGlobe loadedGlobe rotatingMap)
    as (Hpalette & _ & Hglobe & Hmap); try reflexivity.
  split; [|split; assumption].
  rewrite Hpalette. reflexivity.
Defined.

(* ================================================================== *)
(** * Part III: further properties of the components *)
(* ================================================================== *)

(** ** The remainder on non-integers *)

Lemma Int_part_unique (r : R) (k : Z) : IZR k <= r < IZR k + 1 -> Int_part r = k.
Proof. intros H. symmetry. apply Int_part_spec. lra. Qed.

Lemma trunc_nonneg (x : R) : 0 <= x -> IZR (trunc x) <= x < IZR (trunc x) + 1.
Proof.
  intros Hx. unfold trunc. destruct (Rle_dec 0 x) as [_|N]; [|contradiction].
  pose proof (base_Int_part x). lra.
Qed.

Lemma trunc_neg (x : R) : x < 0 -> x <= IZR (trunc x) < x + 1.
Proof.
  intros Hx. unfold trunc. destruct (Rle_dec 0 x) as [H|_]; [lra|].
  pose proof (base_Int_part (- x)). rewrite opp_IZR. lra.
Qed.

Lemma rem_congruent (x y : R) : exists k : Z, rem x y = x - y * IZR k.
Proof. now exists (trunc (x / y)). Qed.

Lemma rem_nonneg (x y : R) : 0 <= x -> 0 < y -> 0 <= rem x y < y.
Proof.
  intros Hx Hy. unfold rem.
  assert (Hq : 0 <= x / y) by (apply Rle_mult_inv_pos; assumption).
  pose proof (trunc_nonneg (x / y) Hq) as Ht.
  assert (E : x = x / y * y) by (field; lra).
  nra.
Qed.

Lemma rem_small (x y : R) : 0 <= x < y -> rem x y = x.
Proof.
  intros [Hx Hy]. unfold rem, trunc.
  assert (Hq : 0 <= x / y < 1).
  { split; [apply Rle_mult_inv_pos; lra|].
    apply (Rmult_lt_reg_r y); [lra|]. replace (x / y * y) with x by (field; lra). lra. }
  destruct (Rle_dec 0 (x / y)) as [_|N]; [|lra].
  rewrite (Int_part_unique (x / y) 0) by (simpl; lra). simpl. ring.
Qed.

Lemma rem_nonpos (x y : R) : x <= 0 -> 0 < y -> - y < rem x y <= 0.
Proof.
  intros Hx Hy. destruct (Req_dec_T x 0) as [->|Hne].
  - rewrite rem_small by lra. lra.
  - unfold rem.
    assert (Hq : x / y < 0).
    { assert (0 < - x / y) by (apply Rdiv_lt_0_compat; lra).
      replace (x / y) with (- (- x / y)) by (field; lra). lra. }
    pose proof (trunc_neg (x / y) Hq) as Ht.
    assert (E : x = x / y * y) by (field; lra).
    nra.
Qed.

Lemma rem_range (x y : R) : 0 < y -> - y < rem x y < y.
Proof.
  intros Hy. destruct (Rle_dec 0 x) as [Hx|Hx].
  - pose proof (rem_nonneg x y Hx Hy). lra.
  - pose proof (rem_nonpos x y ltac:(lra) Hy). lra.
Qed.


Lemma rem_wrap (x y : R) : y <= x < 2 * y -> 0 < y -> rem x y = x - y.
Proof.
  intros [Hy Hx] Hpos. unfold rem, trunc.
  assert (Hq : 1 <= x / y < 2).
  { split.
    - apply (Rmult_le_reg_r y); [lra|]. replace (x / y * y) with x by (field; lra). lra.
    - apply (Rmult_lt_reg_r y); [lra|]. replace (x / y * y) with x by (field; lra). lra. }
  destruct (Rle_dec 0 (x / y)) as [_|N]; [|lra].
  rewrite (Int_part_unique (x / y) 1) by (simpl; lra). simpl. ring.
Qed.

(** ** The 2D map: loading *)

(** X1.  Whatever the network does and whatever the state was, the
    loader of the 2D map completes without throwing, clears the loading
    flag, so that the loading placeholder is not what is rendered next, and
    leaves selection, hover, projection, rotation flag and zoom alone. *)
Theorem loadCountryData_always_settles (fetch : Fetch) (st : Projection2DGlobe.State) :
  exists st' : Projection2DGlobe.State,
    Projection2DGlobe.loadCountryData fetch st = (Normal tt, st')
    /\ Projection2DGlobe.isLoading st' = false
    /\ Projection2DGlobe.render st' <> LoadingPlaceholder
    /\ Projection2DGlobe.selectedCountry st' = Projection2DGlobe.selectedCountry st
    /\ Projection2DGlobe.hoveredCountry st' = Projection2DGlobe.hoveredCountry st
    /\ Projection2DGlobe.projectionConfig st' = Projection2DGlobe.projectionConfig st
    /\ Projection2DGlobe.isRotating st' = Projection2DGlobe.isRotating st
    /\ Projection2DGlobe.zoom st' = Projection2DGlobe.zoom st.
Proof.
  unfold Projection2DGlobe.loadCountryData, try_catch, mbind, eff_bind, update, await, throw.
  destruct (fetch Projection2DGlobe.dataURL) as [[success code [features|failure]]|failure];
    try destruct success; simpl;
    (eexists; split; [reflexivity|]; repeat split; simpl; try discriminate).
Qed.

(** X2.  When the fetch answers with a success status and a well-formed
    payload, the loader stores the payload's features without those whose
    ISO_A2 is 'AQ', in their order, clears any earlier error, and the map
    is rendered with them: no stored feature has ISO_A2 'AQ', and every
    feature of the payload with another ISO_A2, or with none, is stored. *)
Theorem loadCountryData_success
    (fetch : Fetch) (response : Response) (features : list CountryFeature)
    (st : Projection2DGlobe.State) :
  fetch Projection2DGlobe.dataURL = Normal response ->
  ok response = true ->
  payload response = Normal features ->
  exists st' : Projection2DGlobe.State,
    Projection2DGlobe.loadCountryData fetch st = (Normal tt, st')
    /\ Projection2DGlobe.error st' = None
    /\ Projection2DGlobe.countries st' = filter (fun f => notAntarctica f = true) features
    /\ Projection2DGlobe.render st' = Visualization (Projection2DGlobe.countries st') (Projection2DGlobe.selectedCountry st)
    /\ Forall (fun f => prop ISO_A2 f <> Some (lit "AQ")) (Projection2DGlobe.countries st')
    /\ (forall f : CountryFeature,
          In f features -> prop ISO_A2 f <> Some (lit "AQ") -> In f (Projection2DGlobe.countries st'))
    /\ sublist (Projection2DGlobe.countries st') features.
Proof.
  intros Hfetch Hok Hpayload.
  unfold Projection2DGlobe.loadCountryData, try_catch, mbind, eff_bind, update, await, throw.
  rewrite Hfetch, Hok; simpl. rewrite Hpayload; simpl.
  eexists. split; [reflexivity|]. simpl.
  split; [reflexivity|]. split; [reflexivity|]. split; [reflexivity|].
  assert (Hkeep : forall f, notAntarctica f = true <-> prop ISO_A2 f <> Some (lit "AQ")).
  { intros f. unfold notAntarctica, string_eqb.
    destruct (prop ISO_A2 f) as [code|]; [|split; [discriminate|reflexivity]].
    destruct (bool_decide_reflect (code = lit "AQ")) as [->|Hne]; simpl.
    - split; [discriminate|]. intros H; now contradiction H.
    - split; [|reflexivity]. intros _ H. injection H as H. contradiction. }
  split; [|split].
  - apply Forall_forall. intros f Hf.
    apply (proj1 (list_elem_of_filter _ _ _)) in Hf. now apply Hkeep.
  - intros f Hin Hiso. apply (proj1 (list_elem_of_In _ _)).
    apply list_elem_of_filter.
    split; [now apply Hkeep|now apply list_elem_of_In].
  - apply sublist_filter.
Qed.

Lemma loadCountryData_success_witness :
  exists st' : Projection2DGlobe.State,
    Projection2DGlobe.loadCountryData
      (fun _ => Normal (mkResponse true 200 (Normal [france; nameOnly]))) Projection2DGlobe.initial
    = (Normal tt, st')
    /\ Projection2DGlobe.countries st' = [france; nameOnly].
Proof.
  destruct (loadCountryData_success
              (fun _ => Normal (mkResponse true 200 (Normal [france; nameOnly])))
              (mkResponse true 200 (Normal [france; nameOnly])) [france; nameOnly]
              Projection2DGlobe.initial eq_refl eq_refl eq_refl)
    as (st' & Hrun & _ & Hcountries & _).
  exists st'. split; [exact Hrun|]. rewrite Hcountries. reflexivity.
Defined.

(** X3.  A rejected fetch, and a success status whose body is rejected or
    is no topology with a country layer, end as a non-success status does:
    the fixed error message is stored, the countries are those of before,
    and the error placeholder is rendered. *)
Theorem loadCountryData_failure
    (fetch : Fetch) (st : Projection2DGlobe.State) :
  (exists message, fetch Projection2DGlobe.dataURL = Throw message)
  \/ (exists response message,
        fetch Projection2DGlobe.dataURL = Normal response /\ payload response = Throw message) ->
  exists st' : Projection2DGlobe.State,
    Projection2DGlobe.loadCountryData fetch st = (Normal tt, st')
    /\ Projection2DGlobe.error st' = Some loadFailed
    /\ Projection2DGlobe.countries st' = Projection2DGlobe.countries st
    /\ Projection2DGlobe.render st' = ErrorPlaceholder loadFailed.
Proof.
  unfold Projection2DGlobe.loadCountryData, try_catch, mbind, eff_bind, update, await, throw.
  intros [(message & Hfetch)|(response & message & Hfetch & Hpayload)]; rewrite Hfetch.
  - simpl. eexists. split; [reflexivity|]. repeat split.
  - destruct (ok response); simpl; try rewrite Hpayload; simpl;
      (eexists; split; [reflexivity|]; repeat split).
Qed.

Lemma loadCountryData_failure_witness :
  exists st' : Projection2DGlobe.State,
    Projection2DGlobe.loadCountryData
      (fun _ => Normal (mkResponse true 200 (Throw "no country layer"))) Projection2DGlobe.initial
    = (Normal tt, st')
    /\ Projection2DGlobe.render st' = ErrorPlaceholder loadFailed.
Proof.
  destruct (loadCountryData_failure
              (fun _ => Normal (mkResponse true 200 (Throw "no country layer")))
              Projection2DGlobe.initial)
    as (st' & Hrun & _ & _ & Hview).
  - right. eexists _, _. split; reflexivity.
  - exists st'. split; [exact Hrun|exact Hview].
Defined.

(** ** The 2D map: rotation, drag and zoom *)



Lemma tick_rotating (st : Projection2DGlobe.State) :
  Projection2DGlobe.isRotating (Projection2DGlobe.intervalTick st)
  = Projection2DGlobe.isRotating st.
Proof.
  unfold Projection2DGlobe.intervalTick.
  now destruct (Projection2DGlobe.isRotating st) eqn:E.
Qed.

Lemma iter_tick_rotating (n : nat) (st : Projection2DGlobe.State) :
  Projection2DGlobe.isRotating (Nat.iter n Projection2DGlobe.intervalTick st)
  = Projection2DGlobe.isRotating st.
Proof.
  induction n as [|n IH]; [reflexivity|].
  rewrite Nat.iter_succ. now rewrite tick_rotating.
Qed.

Lemma tick_longitude (st : Projection2DGlobe.State) :
  Projection2DGlobe.isRotating st = true ->
  Projection2DGlobe.longitude (Projection2DGlobe.intervalTick st)
  = rem (Projection2DGlobe.longitude st + 0.5) 360.
Proof.
  intros Hrot. unfold Projection2DGlobe.intervalTick. rewrite Hrot.
  unfold Projection2DGlobe.longitude, Projection2DGlobe.autoRotateStep.
  destruct st as [cs sel hov ld err [[[lambda phi] gamma] sc tr] rot z]. reflexivity.
Qed.

Lemma iter_tick_longitude (n : nat) (st : Projection2DGlobe.State) :
  Projection2DGlobe.isRotating st = true ->
  0 <= Projection2DGlobe.longitude st < 360 ->
  (n <= 720)%nat ->
  let total := Projection2DGlobe.longitude st + INR n / 2 in
  Projection2DGlobe.longitude (Nat.iter n Projection2DGlobe.intervalTick st)
  = if Rlt_dec total 360 then total else total - 360.
Proof.
  intros Hrot Hl. induction n as [|n IH]; intros Hn; cbv zeta.
  - simpl. destruct (Rlt_dec _ 360); lra.
  - specialize (IH ltac:(lia)). cbv zeta in IH.
    rewrite Nat.iter_succ. rewrite tick_longitude by (now rewrite iter_tick_rotating).
    rewrite IH. rewrite S_INR.
    assert (Hb : INR n <= 719).
    { replace 719 with (INR 719) by (rewrite INR_IZR_INZ; reflexivity).
      apply le_INR. lia. }
    pose proof (pos_INR n).
    destruct (Rlt_dec (Projection2DGlobe.longitude st + INR n / 2) 360);
      destruct (Rlt_dec (Projection2DGlobe.longitude st + (INR n + 1) / 2) 360);
      try lra.
    + rewrite rem_small by lra. lra.
    + rewrite rem_wrap by lra. lra.
    + rewrite rem_small by lra. lra.
Qed.

(** X5.  Auto-rotation has a period of 720 firings (36 seconds at one
    firing per 50 ms): from a longitude in [0, 360), 720 firings of the
    interval bring the longitude back to where it was. *)
Theorem auto_rotation_period (st : Projection2DGlobe.State) :
  Projection2DGlobe.isRotating st = true ->
  0 <= Projection2DGlobe.longitude st < 360 ->
  Projection2DGlobe.longitude (Nat.iter 720 Projection2DGlobe.intervalTick st)
  = Projection2DGlobe.longitude st.
Proof.
  intros Hrot Hl.
  rewrite (iter_tick_longitude 720 st Hrot Hl (Nat.le_refl _)).
  replace (INR 720) with 720 by (rewrite INR_IZR_INZ; reflexivity).
  destruct (Rlt_dec _ 360); lra.
Qed.

Lemma auto_rotation_period_witness :
  Projection2DGlobe.longitude (Nat.iter 720 Projection2DGlobe.intervalTick rotatingMap)
  = 0.
Proof.
  rewrite (auto_rotation_period rotatingMap eq_refl).
  - reflexivity.
  - unfold Projection2DGlobe.longitude; simpl. lra.
Defined.

Lemma clamp_latitude_range (phi : R) : -90 <= Rmax (-90) (Rmin 90 phi) <= 90.
Proof. unfold Rmax, Rmin. repeat destruct (Rle_dec _ _); lra. Qed.

Lemma clamp_latitude_id (phi : R) : -90 <= phi <= 90 -> Rmax (-90) (Rmin 90 phi) = phi.
Proof. intros H. unfold Rmax, Rmin. repeat destruct (Rle_dec _ _); lra. Qed.

(** X6.  A pointer move during a drag sets the rotation from the press
    point alone.  With [target] the pressed longitude plus half the
    horizontal distance, the longitude differs from [target] by whole turns,
    has its sign and is smaller than 360 in absolute value.  With [wanted]
    the pressed latitude minus half the vertical distance, the latitude is
    [wanted] when that is within [-90, 90], 90 when it is above and -90 when
    it is below.  The roll is the pressed roll.  Scale, translation, zoom,
    selection, hover and rotation flag are untouched. *)
Theorem handleMouseMove_sets_rotation
    (drag : Projection2DGlobe.Drag) (clientX clientY : R) (st : Projection2DGlobe.State) :
  let st' := Projection2DGlobe.handleMouseMove drag clientX clientY st in
  let pressed := Projection2DGlobe.startRotate drag in
  let target := fst (fst pressed) + (clientX - Projection2DGlobe.startX drag) * 0.5 in
  let wanted := snd (fst pressed) - (clientY - Projection2DGlobe.startY drag) * 0.5 in
  (exists k : Z, Projection2DGlobe.longitude st' = target - 360 * IZR k)
  /\ -360 < Projection2DGlobe.longitude st' < 360
  /\ (0 <= target -> 0 <= Projection2DGlobe.longitude st')
  /\ (target <= 0 -> Projection2DGlobe.longitude st' <= 0)
  /\ -90 <= Projection2DGlobe.latitude st' <= 90
  /\ (-90 <= wanted <= 90 -> Projection2DGlobe.latitude st' = wanted)
  /\ (90 < wanted -> Projection2DGlobe.latitude st' = 90)
  /\ (wanted < -90 -> Projection2DGlobe.latitude st' = -90)
  /\ Projection2DGlobe.roll st' = snd pressed
  /\ Projection2DGlobe.scale (Projection2DGlobe.projectionConfig st')
     = Projection2DGlobe.scale (Projection2DGlobe.projectionConfig st)
  /\ Projection2DGlobe.translate (Projection2DGlobe.projectionConfig st')
     = Projection2DGlobe.translate (Projection2DGlobe.projectionConfig st)
  /\ Projection2DGlobe.zoom st' = Projection2DGlobe.zoom st
  /\ Projection2DGlobe.selectedCountry st' = Projection2DGlobe.selectedCountry st
  /\ Projection2DGlobe.hoveredCountry st' = Projection2DGlobe.hoveredCountry st
  /\ Projection2DGlobe.isRotating st' = Projection2DGlobe.isRotating st.
Proof.
  cbv zeta.
  unfold Projection2DGlobe.handleMouseMove, Projection2DGlobe.longitude,
    Projection2DGlobe.latitude, Projection2DGlobe.roll.
  destruct drag as [x0 y0 [[lambda phi] gamma]]; simpl.
  split; [apply rem_congruent|].
  split; [apply rem_range; lra|].
  split; [intros H; apply rem_nonneg; lra|].
  split; [intros H; apply rem_nonpos; lra|].
  split; [apply clamp_latitude_range|].
  split; [apply clamp_latitude_id|].
  split; [intros H; unfold Rmax, Rmin; repeat destruct (Rle_dec _ _); lra|].
  split; [intros H; unfold Rmax, Rmin; repeat destruct (Rle_dec _ _); lra|].
  repeat split.
Qed.

Lemma handleMouseMove_sets_rotation_witness :
  Projection2DGlobe.latitude
    (Projection2DGlobe.handleMouseMove
       (Projection2DGlobe.mkDrag 0 0 (0, 0, 0)) 20 (-60) Projection2DGlobe.initial)
  = 0 - (-60 - 0) * 0.5
  /\ Projection2DGlobe.latitude
       (Projection2DGlobe.handleMouseMove
          (Projection2DGlobe.mkDrag 0 0 (0, 0, 0)) 20 (-400) Projection2DGlobe.initial)
     = 90.
Proof.
  split.
  - destruct (handleMouseMove_sets_rotation
                (Projection2DGlobe.mkDrag 0 0 (0, 0, 0)) 20 (-60) Projection2DGlobe.initial)
      as (_ & _ & _ & _ & _ & Hlat & _).
    apply Hlat. simpl. lra.
  - destruct (handleMouseMove_sets_rotation
                (Projection2DGlobe.mkDrag 0 0 (0, 0, 0)) 20 (-400) Projection2DGlobe.initial)
      as (_ & _ & _ & _ & _ & _ & Hhigh & _).
    apply Hhigh. simpl. lra.
Defined.

Lemma handleMouseMove_absorbs
    (d1 d2 : Projection2DGlobe.Drag) (x1 y1 x2 y2 : R) (st : Projection2DGlobe.State) :
  Projection2DGlobe.handleMouseMove d2 x2 y2 (Projection2DGlobe.handleMouseMove d1 x1 y1 st)
  = Projection2DGlobe.handleMouseMove d2 x2 y2 st.
Proof.
  unfold Projection2DGlobe.handleMouseMove.
  destruct d1 as [a1 b1 [[l1 p1] g1]], d2 as [a2 b2 [[l2 p2] g2]]. reflexivity.
Qed.

Lemma fold_moves_absorbed
    (d : Projection2DGlobe.Drag) (x y : R) (ds : list Projection2DGlobe.Drag) :
  forall st : Projection2DGlobe.State,
    Projection2DGlobe.handleMouseMove d x y
      (fold_left (fun st drag => Projection2DGlobe.handleMouseMove drag x y st) ds st)
    = Projection2DGlobe.handleMouseMove d x y st.
Proof.
  induction ds as [|d' ds IH]; intros st; [reflexivity|].
  cbn [fold_left]. rewrite IH. apply handleMouseMove_absorbs.
Qed.

(** X7.  Pointer moves do not accumulate: of two moves the later alone
    decides the rotation; and when presses whose release was missed have
    left older listeners on the document, a move gives the state that the
    listener of the latest press would give by itself. *)
Theorem latest_press_and_latest_move_decide
    (older : list Projection2DGlobe.Drag) (latest : Projection2DGlobe.Drag)
    (x1 y1 x2 y2 : R) (st : Projection2DGlobe.State) :
  let m := Projection2DGlobe.mkMounted st (older ++ [latest]) in
  Projection2DGlobe.state (Projection2DGlobe.mouseMove x2 y2 m)
  = Projection2DGlobe.handleMouseMove latest x2 y2 st
  /\ Projection2DGlobe.state
       (Projection2DGlobe.mouseMove x2 y2 (Projection2DGlobe.mouseMove x1 y1 m))
     = Projection2DGlobe.state (Projection2DGlobe.mouseMove x2 y2 m).
Proof.
  cbv zeta. unfold Projection2DGlobe.mouseMove; simpl.
  rewrite !fold_left_app; simpl.
  rewrite !fold_moves_absorbed.
  split; [reflexivity|].
  apply handleMouseMove_absorbs.
Qed.

(** *** What every reachable state satisfies *)








(** *** The wheel *)

Lemma wheel_zoom (deltaY : R) (st : Projection2DGlobe.State) :
  Projection2DGlobe.zoom (Projection2DGlobe.handleWheel deltaY st)
  = Projection2DGlobe.zoomBy (if Rlt_dec 0 deltaY then 0.9 else 1.1)
                             (Projection2DGlobe.zoom st).
Proof. reflexivity. Qed.

(** X10.  With the zoom within [0.5, 3], a wheel event scrolling up or
    sideways (deltaY <= 0) never lowers the zoom and raises it by a tenth
    unless the upper bound stops it; a wheel event scrolling down
    (deltaY > 0) never raises it and lowers it by a tenth unless the lower
    bound stops it. *)
Theorem handleWheel_is_monotone (deltaY : R) (st : Projection2DGlobe.State) :
  0.5 <= Projection2DGlobe.zoom st <= 3 ->
  let z := Projection2DGlobe.zoom st in
  let z' := Projection2DGlobe.zoom (Projection2DGlobe.handleWheel deltaY st) in
  (deltaY <= 0 -> z <= z' /\ z' = Rmin 3 (z * 1.1))
  /\ (0 < deltaY -> z' <= z /\ z' = Rmax 0.5 (z * 0.9)).
Proof.
  intros Hz. cbv zeta. rewrite wheel_zoom.
  unfold Projection2DGlobe.zoomBy, Rmax, Rmin.
  split; intros Hd; destruct (Rlt_dec 0 deltaY); try lra;
    repeat destruct (Rle_dec _ _); lra.
Qed.

Lemma handleWheel_is_monotone_witness :
  Projection2DGlobe.zoom (Projection2DGlobe.handleWheel (-1) Projection2DGlobe.initial)
  = Rmin 3 (1 * 1.1).
Proof.
  destruct (handleWheel_is_monotone (-1) Projection2DGlobe.initial) as [Hup _].
  - simpl. lra.
  - apply Hup. lra.
Defined.

Lemma iter_wheel_in (n : nat) (st : Projection2DGlobe.State) :
  0.5 <= Projection2DGlobe.zoom st <= 3 ->
  Projection2DGlobe.zoom (Nat.iter n (Projection2DGlobe.handleWheel (-1)) st)
  = Rmin 3 (Projection2DGlobe.zoom st * 1.1 ^ n).
Proof.
  intros Hz. induction n as [|n IH].
  - simpl. unfold Rmin. destruct (Rle_dec _ _); lra.
  - rewrite Nat.iter_succ, wheel_zoom, IH.
    destruct (Rlt_dec 0 (-1)) as [H|_]; [lra|].
    assert (Hp : 1 <= 1.1 ^ n) by (apply pow_R1_Rle; lra).
    cbn [pow]. unfold Projection2DGlobe.zoomBy, Rmax, Rmin.
    repeat destruct (Rle_dec _ _); nra.
Qed.

Lemma iter_wheel_out (n : nat) (st : Projection2DGlobe.State) :
  0.5 <= Projection2DGlobe.zoom st <= 3 ->
  Projection2DGlobe.zoom (Nat.iter n (Projection2DGlobe.handleWheel 1) st)
  = Rmax 0.5 (Projection2DGlobe.zoom st * 0.9 ^ n).
Proof.
  intros Hz. induction n as [|n IH].
  - simpl. unfold Rmax. destruct (Rle_dec _ _); lra.
  - rewrite Nat.iter_succ, wheel_zoom, IH.
    destruct (Rlt_dec 0 1) as [_|N]; [|lra].
    assert (Hp : 0 < 0.9 ^ n) by (apply pow_lt; lra).
    assert (Hq : 0.9 ^ n <= 1).
    { clear IH. induction n as [|n IHn]; simpl; [lra|].
      assert (0 < 0.9 ^ n) by (apply pow_lt; lra). nra. }
    cbn [pow]. unfold Projection2DGlobe.zoomBy, Rmax, Rmin.
    repeat destruct (Rle_dec _ _); nra.
Qed.

(** X11.  The wheel saturates: from any zoom within [0.5, 3], nineteen
    wheel events scrolling up end at the largest zoom 3, and eighteen
    scrolling down end at the smallest zoom 0.5. *)
Theorem wheel_saturates (st : Projection2DGlobe.State) :
  0.5 <= Projection2DGlobe.zoom st <= 3 ->
  Projection2DGlobe.zoom (Nat.iter 19 (Projection2DGlobe.handleWheel (-1)) st) = 3
  /\ Projection2DGlobe.zoom (Nat.iter 18 (Projection2DGlobe.handleWheel 1) st) = 0.5.
Proof.
  intros Hz. rewrite iter_wheel_in, iter_wheel_out by exact Hz.
  assert (H19 : 6 <= 1.1 ^ 19) by (simpl; lra).
  assert (H18 : 0.9 ^ 18 <= 1 / 6) by (simpl; lra).
  assert (H18p : 0 < 0.9 ^ 18) by (apply pow_lt; lra).
  unfold Rmin, Rmax. split; destruct (Rle_dec _ _); nra.
Qed.

Lemma wheel_saturates_witness :
  Projection2DGlobe.zoom
    (Nat.iter 19 (Projection2DGlobe.handleWheel (-1)) Projection2DGlobe.initial) = 3.
Proof.
  apply (wheel_saturates Projection2DGlobe.initial). simpl. lra.
Defined.

(** ** The accurate globes: highlight, camera and hash *)

Lemma palette_has_no_highlight (c : string) :
  In c AccurateGlobe.COUNTRY_COLORS -> c <> "#ffd700"%string /\ c <> "#ffffff"%string.
Proof.
  unfold AccurateGlobe.COUNTRY_COLORS. simpl.
  intros H. repeat (destruct H as [<-|H]; [split; discriminate|]). contradiction.
Qed.

Lemma getCountryColor_in_palette (country : CountryFeature) :
  exists c : string,
    AccurateGlobe.getCountryColor country = Some c /\ In c AccurateGlobe.COUNTRY_COLORS.
Proof.
  rewrite getCountryColor_lookup. pose proof (colorIndex_range country) as Hrange.
  destruct (nth_error AccurateGlobe.COUNTRY_COLORS
              (Z.to_nat (AccurateGlobe.colorIndex country))) as [c|] eqn:E.
  - exists c. split; [reflexivity|]. eapply nth_error_In; exact E.
  - apply nth_error_None in E. simpl in E. lia.
Qed.

(** X12.  On the globe with the palette, the highlight can be read off the
    cap colour in every state: a polygon is drawn gold exactly when it is the
    selected country, and white exactly when it is the hovered country and
    not the selected one, because no palette entry is gold or white.  The
    altitude and the stroke colour follow the same precedence. *)
Theorem highlight_is_unambiguous (st : AccurateGlobe.State) (polygon : CountryFeature) :
  (AccurateGlobe.getPolygonCapColor st polygon = Some "#ffd700"%string
   <-> same_object (AccurateGlobe.selectedCountry st) polygon = true)
  /\ (AccurateGlobe.getPolygonCapColor st polygon = Some "#ffffff"%string
      <-> same_object (AccurateGlobe.selectedCountry st) polygon = false
          /\ same_object (AccurateGlobe.hoveredCountry st) polygon = true)
  /\ (AccurateGlobe.getPolygonAltitude st polygon = 0.05
      <-> same_object (AccurateGlobe.selectedCountry st) polygon = true)
  /\ (AccurateGlobe.getPolygonStrokeColor st polygon = "#ffd700"%string
      <-> same_object (AccurateGlobe.selectedCountry st) polygon = true).
Proof.
  unfold AccurateGlobe.getPolygonCapColor, AccurateGlobe.getPolygonAltitude,
    AccurateGlobe.getPolygonStrokeColor.
  destruct (getCountryColor_in_palette polygon) as (c & -> & Hc).
  apply palette_has_no_highlight in Hc. destruct Hc as [Hgold Hwhite].
  destruct (same_object (AccurateGlobe.selectedCountry st) polygon);
    destruct (same_object (AccurateGlobe.hoveredCountry st) polygon);
    repeat split; intros; try discriminate; try reflexivity; try lra;
    try (exfalso; congruence); try (destruct H; discriminate).
Qed.

(** X13.  On the globe without the palette, a click always selects the
    polygon and never touches hover, countries or auto-rotation; it moves
    the camera to latitude 20, longitude 0, altitude 1.5 exactly when the
    globe is mounted and the polygon has a non-empty NAME property, and
    leaves the camera where it was otherwise (in particular for features
    that carry no NAME). *)
Theorem click_moves_the_camera_for_named_features_only
    (polygon : CountryFeature) (st : AccurateGlobeBase.State) :
  let st' := AccurateGlobeBase.handleCountryClick polygon st in
  AccurateGlobeBase.selectedCountry st' = Some polygon
  /\ AccurateGlobeBase.hoveredCountry st' = AccurateGlobeBase.hoveredCountry st
  /\ AccurateGlobeBase.countries st' = AccurateGlobeBase.countries st
  /\ AccurateGlobeBase.autoRotate st' = AccurateGlobeBase.autoRotate st
  /\ ((AccurateGlobeBase.globeEl st = true
       /\ exists c s, prop NAME polygon = Some (c :: s)) ->
      AccurateGlobeBase.pointOfView st' = (20, 0, 1.5))
  /\ ((AccurateGlobeBase.globeEl st = false
       \/ prop NAME polygon = None \/ prop NAME polygon = Some []) ->
      AccurateGlobeBase.pointOfView st' = AccurateGlobeBase.pointOfView st).
Proof.
  cbv zeta. unfold AccurateGlobeBase.handleCountryClick, AccurateGlobeBase.canZoomTo.
  simpl AccurateGlobeBase.globeEl.
  destruct (AccurateGlobeBase.globeEl st); destruct (prop NAME polygon) as [[|c s]|];
    simpl; repeat split; try reflexivity;
    try (intros [H (c' & s' & E)]; discriminate);
    try (intros [H|[H|H]]; discriminate).
Qed.

Lemma click_moves_the_camera_for_named_features_only_witness :
  AccurateGlobeBase.pointOfView (AccurateGlobeBase.handleCountryClick france loadedGlobe)
  = (20, 0, 1.5).
Proof.
  destruct (click_moves_the_camera_for_named_features_only france loadedGlobe)
    as (_ & _ & _ & _ & Hmove & _).
  apply Hmove. split; [reflexivity|]. eexists _, _. reflexivity.
Defined.

Lemma toInt32_small (z : Z) : (- 2 ^ 31 <= z < 2 ^ 31)%Z -> toInt32 z = z.
Proof.
  intros Hz. unfold toInt32. cbv zeta.
  destruct (Z_lt_dec z 0) as [Hneg|Hpos].
  - replace (z mod 2 ^ 32)%Z with (z + 2 ^ 32)%Z.
    + destruct (Z.geb_spec (z + 2 ^ 32) (2 ^ 31)); lia.
    + apply (Z.mod_unique _ _ (-1)); lia.
  - rewrite Z.mod_small by lia.
    destruct (Z.geb_spec z (2 ^ 31)); lia.
Qed.

Lemma hashStep_no_wrap (hash c : Z) :
  (0 <= hash < 2 ^ 26)%Z -> AccurateGlobe.hashStep hash c = (31 * hash + c)%Z.
Proof.
  intros Hh. unfold AccurateGlobe.hashStep, shl.
  change (Z.land 5 31) with 5%Z.
  rewrite (toInt32_small hash) by lia.
  rewrite Z.shiftl_mul_pow2 by lia.
  rewrite toInt32_small by lia. lia.
Qed.

(** Rewrites the hash steps of a short code, innermost first. *)
Ltac unwrap_hash :=
  repeat match goal with
         | |- context [AccurateGlobe.hashStep ?h ?c] =>
             lazymatch h with
             | context [AccurateGlobe.hashStep] => fail
             | _ => rewrite (hashStep_no_wrap h c) by lia
             end
         end.

(** X14.  For a code of at most four code units, which covers ISO_A2,
    ISO_A3 and the fallback 'XX', the 32-bit shift never wraps: the hash is
    the polynomial in 31 of the code units, it is not negative, and two
    codes of two capital letters have the same hash only if they are the
    same code. *)
Theorem hashCode_of_an_iso_code (isoCode : jsstring) :
  (List.length isoCode <= 4)%nat ->
  Forall (fun c => 0 <= c < 65536)%Z isoCode ->
  AccurateGlobe.hashCode isoCode = AccurateGlobe.horner31 isoCode
  /\ (0 <= AccurateGlobe.hashCode isoCode < 2 ^ 31)%Z
  /\ (forall a b c d : Z,
        isoCode = [a; b] ->
        (65 <= a <= 90 -> 65 <= b <= 90 -> 65 <= c <= 90 -> 65 <= d <= 90 ->
         AccurateGlobe.hashCode [c; d] = AccurateGlobe.hashCode isoCode ->
         c = a /\ d = b)%Z).
Proof.
  intros Hlen Hunits.
  assert (Hpoly : AccurateGlobe.hashCode isoCode = AccurateGlobe.horner31 isoCode
                  /\ (0 <= AccurateGlobe.hashCode isoCode < 2 ^ 31)%Z).
  { unfold AccurateGlobe.hashCode, AccurateGlobe.horner31.
    destruct isoCode as [|c1 [|c2 [|c3 [|c4 [|c5 rest]]]]]; simpl in Hlen; try lia;
      repeat match goal with
             | H : Forall _ (_ :: _) |- _ => inversion H; subst; clear H
             end;
      cbn [fold_left]; unwrap_hash; lia. }
  split; [apply Hpoly|]. split; [apply Hpoly|].
  intros a b c d -> Ha Hb Hc Hd.
  unfold AccurateGlobe.hashCode; cbn [fold_left].
  unwrap_hash. lia.
Qed.

Lemma hashCode_of_an_iso_code_witness :
  AccurateGlobe.hashCode (lit "FR") = AccurateGlobe.horner31 (lit "FR").
Proof.
  apply (hashCode_of_an_iso_code (lit "FR")).
  - simpl. lia.
  - change (lit "FR") with [70; 82]%Z.
    constructor; [lia|]. constructor; [lia|]. constructor.
Defined.

(** ** Capability detection, once more *)

(** X15.  The detection records [true] exactly when the request resolved
    to an adapter and the first call of the frame-rate sampler returned: a
    sampler that throws downgrades a granted adapter to the basic tier.
    It never touches the performance statistics, and running it again on
    the same host changes nothing. *)
Theorem detection_outcome (host : WebGPUGlobe.Host) (st : WebGPUGlobe.State) :
  let st' := snd (WebGPUGlobe.checkWebGPU host st) in
  (WebGPUGlobe.isWebGPU st' = Some true
   <-> exists (g : WebGPUGlobe.GPU) (adapter : WebGPUGlobe.GPUAdapter),
         WebGPUGlobe.gpu host = Some (Some g)
         /\ WebGPUGlobe.requestAdapter g = Normal (Some adapter)
         /\ WebGPUGlobe.firstSample host = Normal tt)
  /\ ((exists message, WebGPUGlobe.firstSample host = Throw message) ->
      WebGPUGlobe.tier st' = WebGPUGlobe.basic)
  /\ WebGPUGlobe.performanceStats st' = WebGPUGlobe.performanceStats st
  /\ snd (WebGPUGlobe.checkWebGPU host st') = st'.
Proof.
  cbv zeta. rewrite !checkWebGPU_run. simpl.
  unfold WebGPUGlobe.tier, WebGPUGlobe.isWebGPUProp, WebGPUGlobe.detects; simpl.
  destruct host as [probe sample]; simpl.
  split; [|split; [|split; reflexivity]].
  - split.
    + destruct probe as [[[[[adapter|]|message]]|]|]; try discriminate;
        destruct sample as [[]|failure]; try discriminate.
      intros _. eexists _, _. repeat split.
    + intros (g & adapter & -> & Hreq & ->). now rewrite Hreq.
  - intros (message & ->).
    destruct probe as [[[[[adapter|]|failure]]|]|]; reflexivity.
Qed.

Lemma detection_outcome_witness :
  WebGPUGlobe.tier
    (snd (WebGPUGlobe.checkWebGPU
            (WebGPUGlobe.mkHost
               (Some (Some (WebGPUGlobe.mkGPU (Normal (Some WebGPUGlobe.gpuAdapter)))))
               (Throw "requestAnimationFrame is not defined"))
            WebGPUGlobe.initial))
  = WebGPUGlobe.basic.
Proof.
  apply (detection_outcome
           (WebGPUGlobe.mkHost
              (Some (Some (WebGPUGlobe.mkGPU (Normal (Some WebGPUGlobe.gpuAdapter)))))
              (Throw "requestAnimationFrame is not defined"))
           WebGPUGlobe.initial).
  eexists. reflexivity.
Defined.

(** ** Vectors *)

Lemma length_zero_components (v : Vector3.t) :
  Vector3.length v = 0 -> v = Vector3.mk 0 0 0.
Proof.
  destruct v as [a b c]. unfold Vector3.length; simpl. intros H.
  apply sqrt_eq_0 in H; [|nra].
  assert (a = 0) by nra. assert (b = 0) by nra. assert (c = 0) by nra.
  now subst.
Qed.

Lemma normalize_zero : Vector3.normalize (Vector3.mk 0 0 0) = Vector3.mk 0 0 0.
Proof.
  unfold Vector3.normalize, Vector3.divideScalar, Vector3.multiplyScalar; simpl.
  f_equal; ring.
Qed.

Lemma normalize_unit (v : Vector3.t) : Vector3.length v = 1 -> Vector3.normalize v = v.
Proof.
  intros H. unfold Vector3.normalize. rewrite H.
  destruct (Req_dec_T 1 0) as [E|_]; [lra|].
  destruct v as [a b c].
  unfold Vector3.divideScalar, Vector3.multiplyScalar; simpl.
  f_equal; field.
Qed.

(** three.js's [normalize] never divides by zero and is idempotent: the zero
    vector, and no other, is left at length 0 (it is returned unchanged);
    every other vector is brought to length 1; and normalising twice is
    normalising once. *)
Theorem normalize_is_safe_and_idempotent (v : Vector3.t) :
  (Vector3.length v = 0 -> Vector3.normalize v = v)
  /\ (Vector3.length v <> 0 -> Vector3.length (Vector3.normalize v) = 1)
  /\ (Vector3.length (Vector3.normalize v) = 0 <-> v = Vector3.mk 0 0 0)
  /\ Vector3.normalize (Vector3.normalize v) = Vector3.normalize v.
Proof.
  assert (Hzero : Vector3.length v = 0 -> Vector3.normalize v = v).
  { intros H. apply length_zero_components in H. subst. apply normalize_zero. }
  split; [exact Hzero|]. split; [apply length_normalize|]. split.
  - split.
    + intros H. destruct (Req_dec_T (Vector3.length v) 0) as [E|N].
      * now apply length_zero_components.
      * rewrite length_normalize in H by exact N. lra.
    + intros ->. rewrite normalize_zero. unfold Vector3.length; simpl.
      replace (0 * 0 + 0 * 0 + 0 * 0) with 0 by ring. apply sqrt_0.
  - destruct (Req_dec_T (Vector3.length v) 0) as [E|N].
    + now rewrite !(Hzero E).
    + apply normalize_unit. now apply length_normalize.
Qed.

Lemma normalize_is_safe_and_idempotent_witness :
  Vector3.length (Vector3.normalize (northPole 2)) = 1.
Proof.
  apply (normalize_is_safe_and_idempotent (northPole 2)).
  rewrite length_northPole; lra.
Defined.

(** ** The procedural globes: relief, colours and shells *)

Lemma multiplyScalar_zero (s : R) :
  Vector3.multiplyScalar s (Vector3.mk 0 0 0) = Vector3.mk 0 0 0.
Proof. unfold Vector3.multiplyScalar; simpl. f_equal; ring. Qed.

Lemma length_zero_vector : Vector3.length (Vector3.mk 0 0 0) = 0.
Proof.
  unfold Vector3.length; simpl.
  replace (0 * 0 + 0 * 0 + 0 * 0) with 0 by ring. apply sqrt_0.
Qed.

Lemma WebGPU_displaced_radius_le (v : Vector3.t) :
  0 <= Vector3.length (WebGPUGlobe.displaced v) <= 1.105.
Proof.
  pose proof (WebGPU_displacement_bound v) as Hd.
  destruct (Req_dec_T (Vector3.length v) 0) as [E|N].
  - apply length_zero_components in E. subst v.
    unfold WebGPUGlobe.displaced.
    rewrite normalize_zero, multiplyScalar_zero, length_zero_vector. lra.
  - rewrite WebGPU_displaced_radius by exact N. unfold WebGPUGlobe.baseRadius. lra.
Qed.


(** X17.  At every moment of the animation the shells are nested: the
    highest terrain vertex (at most 1.105) lies below the pulsing
    atmosphere shell (between 1.2995 and 1.3455), which lies inside the
    nearest position [OrbitControls] allows the camera (1.5), which lies
    inside the pulsing glow shell (between 1.525 and 1.6). *)
Theorem shells_are_nested (v : Vector3.t) (elapsedTime : R) :
  let terrain := Vector3.length (WebGPUGlobe.displaced v) in
  let atmosphere := WebGPUGlobe.atmosphereRadius
                    * fst (WebGPUGlobe.atmospherePulse elapsedTime) in
  let glow := WebGPUGlobe.glowRadius * snd (WebGPUGlobe.atmospherePulse elapsedTime) in
  terrain <= 1.105
  /\ 1.2995 <= atmosphere <= 1.3455
  /\ 1.525 <= glow <= 1.6
  /\ terrain < atmosphere
  /\ atmosphere < WebGPUGlobe.minDistance
  /\ WebGPUGlobe.minDistance < glow.
Proof.
  cbv zeta. pose proof (WebGPU_displaced_radius_le v) as Ht.
  unfold WebGPUGlobe.atmospherePulse, WebGPUGlobe.atmosphereRadius,
    WebGPUGlobe.glowRadius, WebGPUGlobe.minDistance; simpl.
  pose proof (SIN_bound (elapsedTime * 1.5)).
  pose proof (SIN_bound (elapsedTime * 1.2)).
  repeat split; lra.
Qed.

Lemma ocean_is_not_land (elevation : R) :
  0.01 < elevation -> WebGPUGlobe.land elevation <> WebGPUGlobe.ocean.
Proof.
  intros He H. unfold WebGPUGlobe.land, WebGPUGlobe.ocean in H.
  injection H as H1 _ _. lra.
Qed.

Lemma snow_is_not_land (elevation : R) : WebGPUGlobe.land elevation <> WebGPUGlobe.snow.
Proof.
  intros H. unfold WebGPUGlobe.land, WebGPUGlobe.snow in H.
  injection H as H1 H2 _. lra.
Qed.

Lemma snow_is_not_ocean : WebGPUGlobe.snow <> WebGPUGlobe.ocean.
Proof.
  intros H. unfold WebGPUGlobe.snow, WebGPUGlobe.ocean in H.
  injection H as H1 _ _. lra.
Qed.

Lemma Forall_buffer (P : R -> Prop) (vs : list Vector3.t) :
  Forall (fun v => P (Vector3.x v) /\ P (Vector3.y v) /\ P (Vector3.z v)) vs ->
  Forall P (Vector3.buffer vs).
Proof.
  induction 1 as [|v vs (Hx & Hy & Hz) _ IH]; simpl; repeat constructor; assumption.
Qed.

Lemma vertexColor_channels (v : Vector3.t) :
  let c := WebGPUGlobe.vertexColor (WebGPUGlobe.displaced v) in
  0 <= Vector3.x c <= 1 /\ 0 <= Vector3.y c <= 1 /\ 0 <= Vector3.z c <= 1.
Proof.
  cbv zeta. pose proof (WebGPU_displaced_radius_le v) as Hr.
  unfold WebGPUGlobe.vertexColor, WebGPUGlobe.elevationOf.
  destruct (Rlt_dec _ _) as [He|He]; [destruct (Rlt_dec _ _)|]; simpl; lra.
Qed.

(** X19.  The colour attribute fits the position attribute and holds
    colours: the geometry of the advanced renderer has three colour entries
    per generated vertex, as many as position entries, and every colour
    entry lies between 0 and 1. *)
Theorem colours_are_valid (SphereGeometry : SphereGeometryT) (isWebGPU : bool) (g : Rng) :
  exists positions colors : list R,
    fst (WebGPUGlobe.geometry SphereGeometry isWebGPU g)
    = Normal (mkGeometry positions (Some colors))
    /\ List.length positions
       = (3 * List.length (SphereGeometry WebGPUGlobe.baseRadius
                             (WebGPUGlobe.widthSegments isWebGPU)
                             (WebGPUGlobe.heightSegments isWebGPU)))%nat
    /\ List.length colors = List.length positions
    /\ Forall (fun c => 0 <= c <= 1) colors.
Proof.
  rewrite WebGPU_geometry_spec. cbv zeta. simpl fst.
  eexists _, _. split; [reflexivity|].
  rewrite !buffer_length, !length_map.
  split; [reflexivity|]. split; [reflexivity|].
  apply Forall_buffer. rewrite map_map.
  apply Forall_forall. intros c Hin.
  apply list_elem_of_In, in_map_iff in Hin. destruct Hin as (v & <- & _).
  apply vertexColor_channels.
Qed.

(** ** The frame callbacks *)

(** X20.  A frame of the advanced renderer's globe keeps the animated
    values in range: the tilt within 0.02 of zero, and, under the advanced
    tier, the sheen roughness between 0.2 and 0.8 and the iridescence
    thickness range 100 wide with its lower end between 100 and 200.  Under
    the basic tier the material is not touched, and without a mesh nothing
    is. *)
Theorem globeFrame_keeps_values_in_range
    (isWebGPU : bool) (elapsedTime delta : R)
    (mesh : option MeshRotation) (material : WebGPUGlobe.Material) :
  let scene' := WebGPUGlobe.globeFrame isWebGPU elapsedTime delta (mesh, material) in
  (forall r, mesh = Some r ->
     exists r', fst scene' = Some r'
       /\ -0.02 <= rotationX r' <= 0.02
       /\ rotationY r' = rotationY r + delta * 0.08
       /\ (isWebGPU = true ->
           let range := WebGPUGlobe.iridescenceThicknessRange (snd scene') in
           0.2 <= WebGPUGlobe.sheenRoughness (snd scene') <= 0.8
           /\ 100 <= fst range <= 200
           /\ snd range = fst range + 100
           /\ WebGPUGlobe.needsUpdate (snd scene') = true)
       /\ (isWebGPU = false -> snd scene' = material))
  /\ (mesh = None -> scene' = (mesh, material)).
Proof.
  cbv zeta. unfold WebGPUGlobe.globeFrame; simpl.
  split.
  - intros r ->. eexists. split; [reflexivity|]. simpl.
    pose proof (SIN_bound (elapsedTime * 0.05)).
    pose proof (SIN_bound (elapsedTime * 0.5)).
    pose proof (SIN_bound (elapsedTime * 0.3)).
    split; [lra|]. split; [reflexivity|].
    split; intros ->; simpl; [|reflexivity].
    repeat split; lra.
  - intros ->. reflexivity.
Qed.

Lemma globeFrame_keeps_values_in_range_witness :
  exists r',
    fst (WebGPUGlobe.globeFrame true 10 0.016
           (Some (mkMeshRotation 0 0), WebGPUGlobe.mkMaterial (100, 300) 0.5 false))
    = Some r'
    /\ rotationX r' <= 0.02.
Proof.
  destruct (globeFrame_keeps_values_in_range true 10 0.016 (Some (mkMeshRotation 0 0))
              (WebGPUGlobe.mkMaterial (100, 300) 0.5 false)) as [Hmesh _].
  destruct (Hmesh (mkMeshRotation 0 0) eq_refl) as (r' & Hr & Hx & _).
  exists r'. split; [exact Hr|apply Hx].
Defined.

Lemma globeFrames_spin (isWebGPU : bool) (clock : list (R * R)) :
  forall (r : MeshRotation) (material : WebGPUGlobe.Material),
  exists r' material',
    WebGPUGlobe.globeFrames isWebGPU clock (Some r, material) = (Some r', material')
    /\ rotationY r' = rotationY r + 0.08 * fold_right Rplus 0 (map snd clock).
Proof.
  unfold WebGPUGlobe.globeFrames.
  induction clock as [|[t d] clock IH]; intros r material.
  - exists r, material. split; [reflexivity|]. simpl. ring.
  - cbn [fold_left]. unfold WebGPUGlobe.globeFrame at 2. cbn [fst snd].
    destruct (IH (mkMeshRotation (sin (t * 0.05) * 0.02) (rotationY r + d * 0.08))
                 (if isWebGPU
                  then WebGPUGlobe.mkMaterial
                         (150 + sin (t * 0.5) * 50, 250 + sin (t * 0.5) * 50)
                         (0.5 + sin (t * 0.3) * 0.3) true
                  else material))
      as (r' & material' & Hrun & Hy).
    exists r', material'. split; [exact Hrun|].
    rewrite Hy. simpl. ring.
Qed.

(** X21.  The spin of the advanced renderer's globe does not depend on
    the frame rate: after any sequence of frames the mesh has turned by
    0.08 times the sum of the frames' deltas, so two sequences spanning the
    same time leave the same rotation about the vertical axis. *)
Theorem globe_spin_is_frame_rate_independent
    (isWebGPU : bool) (clock1 clock2 : list (R * R))
    (r : MeshRotation) (material : WebGPUGlobe.Material) :
  fold_right Rplus 0 (map snd clock1) = fold_right Rplus 0 (map snd clock2) ->
  exists r1 r2,
    fst (WebGPUGlobe.globeFrames isWebGPU clock1 (Some r, material)) = Some r1
    /\ fst (WebGPUGlobe.globeFrames isWebGPU clock2 (Some r, material)) = Some r2
    /\ rotationY r1 = rotationY r + 0.08 * fold_right Rplus 0 (map snd clock1)
    /\ rotationY r2 = rotationY r1.
Proof.
  intros Hsum.
  destruct (globeFrames_spin isWebGPU clock1 r material) as (r1 & m1 & H1 & Hy1).
  destruct (globeFrames_spin isWebGPU clock2 r material) as (r2 & m2 & H2 & Hy2).
  exists r1, r2. rewrite H1, H2. repeat split; try assumption.
  rewrite Hy1, Hy2, Hsum. reflexivity.
Qed.

Lemma globe_spin_is_frame_rate_independent_witness :
  exists r1 r2,
    fst (WebGPUGlobe.globeFrames true [(1, 1); (2, 1)]
           (Some (mkMeshRotation 0 0), WebGPUGlobe.mkMaterial (100, 300) 0.5 false))
    = Some r1
    /\ fst (WebGPUGlobe.globeFrames true [(2, 2)]
              (Some (mkMeshRotation 0 0), WebGPUGlobe.mkMaterial (100, 300) 0.5 false))
       = Some r2
    /\ rotationY r2 = rotationY r1.
Proof.
  destruct (globe_spin_is_frame_rate_independent true [(1, 1); (2, 1)] [(2, 2)]
              (mkMeshRotation 0 0) (WebGPUGlobe.mkMaterial (100, 300) 0.5 false))
    as (r1 & r2 & H1 & H2 & _ & Hy).
  - simpl. lra.
  - exists r1, r2. repeat split; assumption.
Defined.

(** X22.  The wireframe overlay of the low-poly globe never drifts from
    the mesh: when both refs are set and start with the same rotation, any
    sequence of frames leaves both with one and the same rotation, turned by
    0.3 times the sum of the deltas. *)
Theorem wireframe_stays_aligned (clock : list (R * R)) (r : MeshRotation) :
  exists r',
    LowPolyGlobe.frames clock (Some r, Some r) = (Some r', Some r')
    /\ rotationY r' = rotationY r + 0.3 * fold_right Rplus 0 (map snd clock).
Proof.
  unfold LowPolyGlobe.frames. revert r.
  induction clock as [|[t d] clock IH]; intros r.
  - exists r. split; [reflexivity|]. simpl. ring.
  - cbn [fold_left]. unfold LowPolyGlobe.frame at 2, LowPolyGlobe.spin. cbn [fst snd].
    destruct (IH (mkMeshRotation (sin (t * 0.1) * 0.1) (rotationY r + d * 0.3)))
      as (r' & Hrun & Hy).
    exists r'. split; [exact Hrun|]. rewrite Hy. simpl. ring.
Qed.

(** ** The star fields *)

Lemma spherical_length (r phi theta : R) :
  0 <= r ->
  Vector3.length (Vector3.mk (r * sin phi * cos theta) (r * sin phi * sin theta) (r * cos phi))
  = r.
Proof.
  intros Hr. unfold Vector3.length; simpl.
  apply sqrt_lem_1; [|exact Hr|].
  - nra.
  - pose proof (sin2_cos2 phi) as Hp. pose proof (sin2_cos2 theta) as Ht.
    unfold Rsqr in Hp, Ht.
    replace (r * sin phi * cos theta * (r * sin phi * cos theta)
             + r * sin phi * sin theta * (r * sin phi * sin theta)
             + r * cos phi * (r * cos phi))
      with (r * r * (sin phi * sin phi * (sin theta * sin theta + cos theta * cos theta)
                     + cos phi * cos phi)) by ring.
    rewrite Ht, Rmult_1_r, Hp. ring.
Qed.

Lemma star_run (g : Rng) :
  WebGPUGlobe.star g
  = (Normal (let radius := 8 + g 2%nat * 2 in
             let phi := acos (2 * g 1%nat - 1) in
             let theta := g 0%nat * PI * 2 in
             (Vector3.mk (radius * sin phi * cos theta)
                         (radius * sin phi * sin theta)
                         (radius * cos phi),
              WebGPUGlobe.starColor (g 3%nat))),
     fun n => g (4 + n)%nat).
Proof. reflexivity. Qed.

Lemma stars_run (count : nat) :
  forall g : Rng,
  exists ps g',
    WebGPUGlobe.stars count g = (Normal ps, g')
    /\ List.length ps = count
    /\ (forall n, g' n = g (4 * count + n)%nat)
    /\ ((forall n, 0 <= g n < 1) ->
        Forall (fun star =>
                  8 <= Vector3.length (fst star) < 10
                  /\ (snd star = Vector3.mk 1.0 1.0 1.0
                      \/ snd star = Vector3.mk 0.7 0.8 1.0
                      \/ snd star = Vector3.mk 1.0 0.9 0.6)) ps).
Proof.
  induction count as [|count IH]; intros g.
  - exists [], g. repeat split; constructor.
  - cbn [WebGPUGlobe.stars]. unfold mbind, eff_bind at 1. rewrite star_run.
    destruct (IH (fun n => g (4 + n)%nat)) as (ps & g' & Hrun & Hlen & Hg' & Hin).
    unfold mbind, eff_bind. rewrite Hrun. simpl.
    eexists _, _. split; [reflexivity|].
    split; [simpl; now rewrite Hlen|].
    split.
    + intros n. rewrite Hg'. f_equal. lia.
    + intros Hg. constructor.
      * simpl. rewrite spherical_length by (specialize (Hg 2%nat); lra).
        split; [specialize (Hg 2%nat); lra|].
        unfold WebGPUGlobe.starColor.
        destruct (Rlt_dec _ _); [now left|].
        destruct (Rlt_dec _ _); [right; now left|right; now right].
      * apply Hin. intros n. apply Hg.
Qed.

(** X23.  A star field of [count] stars has three position entries and
    three colour entries per star and draws exactly four random numbers per
    star, in order; it never throws. *)
Theorem starField_size_and_draws (count : nat) (g : Rng) :
  exists positions colors g',
    WebGPUGlobe.starField count g = (Normal (mkGeometry positions (Some colors)), g')
    /\ List.length positions = (3 * count)%nat
    /\ List.length colors = (3 * count)%nat
    /\ (forall n, g' n = g (4 * count + n)%nat).
Proof.
  destruct (stars_run count g) as (ps & g' & Hrun & Hlen & Hg' & _).
  unfold WebGPUGlobe.starField, mbind, eff_bind. rewrite Hrun. simpl.
  eexists _, _, _. split; [reflexivity|].
  rewrite !buffer_length, !length_map, Hlen. repeat split. exact Hg'.
Qed.

Lemma starTriple_run (g : Rng) :
  LowPolyGlobe.starTriple g
  = (Normal [(g 0%nat - 0.5) * 100; (g 1%nat - 0.5) * 100; (g 2%nat - 0.5) * 100],
     fun n => g (3 + n)%nat).
Proof. reflexivity. Qed.

Lemma starPositions_run (count : nat) :
  forall g : Rng,
  exists coordinates g',
    LowPolyGlobe.starPositions count g = (Normal coordinates, g')
    /\ List.length coordinates = (3 * count)%nat
    /\ (forall n, g' n = g (3 * count + n)%nat)
    /\ ((forall n, 0 <= g n < 1) -> Forall (fun c => -50 <= c < 50) coordinates).
Proof.
  induction count as [|count IH]; intros g.
  - exists [], g. repeat split; constructor.
  - cbn [LowPolyGlobe.starPositions]. unfold mbind, eff_bind at 1. rewrite starTriple_run.
    destruct (IH (fun n => g (3 + n)%nat)) as (cs & g' & Hrun & Hlen & Hg' & Hin).
    unfold mbind, eff_bind. rewrite Hrun. simpl.
    eexists _, _. split; [reflexivity|].
    split; [simpl; rewrite Hlen; lia|].
    split.
    + intros n. rewrite Hg'. f_equal. lia.
    + intros Hg.
      pose proof (Hg 0%nat). pose proof (Hg 1%nat). pose proof (Hg 2%nat).
      constructor; [lra|]. constructor; [lra|]. constructor; [lra|].
      apply Hin. intros n. apply Hg.
Qed.

(** X25.  The star background of the low-poly globe holds 1500
    coordinates (500 stars), draws exactly 1500 random numbers, and, with a
    random source in [0, 1), every coordinate lies in [-50, 50). *)
Theorem lowpoly_stars_fill_a_cube (g : Rng) :
  exists coordinates g',
    LowPolyGlobe.stars g = (Normal coordinates, g')
    /\ List.length coordinates = 1500%nat
    /\ (forall n, g' n = g (1500 + n)%nat)
    /\ ((forall n, 0 <= g n < 1) -> Forall (fun c => -50 <= c < 50) coordinates).
Proof.
  destruct (starPositions_run 500 g) as (cs & g' & Hrun & Hlen & Hg' & Hin).
  exists cs, g'. split; [exact Hrun|]. split; [exact Hlen|]. split; [exact Hg'|exact Hin].
Qed.

Lemma lowpoly_stars_fill_a_cube_witness :
  exists coordinates g',
    LowPolyGlobe.stars noRandom = (Normal coordinates, g')
    /\ Forall (fun c => -50 <= c < 50) coordinates.
Proof.
  destruct (lowpoly_stars_fill_a_cube noRandom) as (cs & g' & Hrun & _ & _ & Hin).
  exists cs, g'. split; [exact Hrun|]. apply Hin. intros n. unfold noRandom. lra.
Defined.

(** ** Selection on the globe with the palette *)

Lemma capColor_gold (st : AccurateGlobe.State) (polygon : CountryFeature) :
  AccurateGlobe.getPolygonCapColor st polygon = Some "#ffd700"%string
  <-> same_object (AccurateGlobe.selectedCountry st) polygon = true.
Proof.
  unfold AccurateGlobe.getPolygonCapColor.
  destruct (getCountryColor_in_palette polygon) as (c & -> & Hc).
  apply palette_has_no_highlight in Hc. destruct Hc as [Hgold Hwhite].
  destruct (same_object (AccurateGlobe.selectedCountry st) polygon);
    [split; reflexivity|].
  destruct (same_object (AccurateGlobe.hoveredCountry st) polygon);
    split; intros H; try discriminate; congruence.
Qed.

Lemma capColor_white (st : AccurateGlobe.State) (polygon : CountryFeature) :
  AccurateGlobe.selectedCountry st = None ->
  AccurateGlobe.hoveredCountry st = None ->
  AccurateGlobe.getPolygonCapColor st polygon <> Some "#ffffff"%string.
Proof.
  intros Hs Hh. unfold AccurateGlobe.getPolygonCapColor. rewrite Hs, Hh. simpl.
  destruct (getCountryColor_in_palette polygon) as (c & -> & Hc).
  apply palette_has_no_highlight in Hc. destruct Hc as [_ Hwhite]. congruence.
Qed.

(** X26.  On the globe with the palette, after a click on a country the
    polygons drawn gold are exactly those that are that very object, and the
    info panel shows it; after Clear Selection no polygon is gold and the
    panel is gone, while the hover is as before; and once the pointer has
    left with nothing selected, no polygon is white. *)
Theorem selection_lifecycle
    (st : AccurateGlobe.State) (country polygon : CountryFeature) :
  (AccurateGlobe.getPolygonCapColor (AccurateGlobe.handleCountryClick country st) polygon
   = Some "#ffd700"%string
   <-> ref polygon = ref country)
  /\ (AccurateGlobe.isLoading st = false -> AccurateGlobe.error st = None ->
      AccurateGlobe.render (AccurateGlobe.handleCountryClick country st)
      = Visualization (AccurateGlobe.countries st) (Some country))
  /\ AccurateGlobe.getPolygonCapColor (AccurateGlobe.clearSelection st) polygon
     <> Some "#ffd700"%string
  /\ (AccurateGlobe.isLoading st = false -> AccurateGlobe.error st = None ->
      AccurateGlobe.render (AccurateGlobe.clearSelection st)
      = Visualization (AccurateGlobe.countries st) None)
  /\ AccurateGlobe.hoveredCountry (AccurateGlobe.clearSelection st)
     = AccurateGlobe.hoveredCountry st
  /\ (AccurateGlobe.selectedCountry st = None ->
      AccurateGlobe.getPolygonCapColor (AccurateGlobe.handleCountryHover None st) polygon
      <> Some "#ffffff"%string).
Proof.
  split; [|split; [|split; [|split; [|split]]]].
  - rewrite capColor_gold. simpl. rewrite Nat.eqb_eq. split; congruence.
  - intros Hl He. unfold AccurateGlobe.render; simpl. now rewrite Hl, He.
  - intros H. apply capColor_gold in H. discriminate.
  - intros Hl He. unfold AccurateGlobe.render; simpl. now rewrite Hl, He.
  - reflexivity.
  - intros Hs. apply capColor_white; [exact Hs|reflexivity].
Qed.

Lemma selection_lifecycle_witness :
  AccurateGlobe.render (AccurateGlobe.clearSelection loadedPaletteGlobe)
  = Visualization [france] None.
Proof.
  destruct (selection_lifecycle loadedPaletteGlobe france france)
    as (_ & _ & _ & Hclear & _).
  apply Hclear; reflexivity.
Defined.

(** ** The stores into [Float32Array], rounded *)

Lemma Rabs_between (x y : R) : Rabs x <= y -> - y <= x <= y.
Proof. unfold Rabs. destruct (Rcase_abs x); lra. Qed.

Lemma perturbed_square (a e d delta : R) :
  Rabs a <= d -> Rabs e <= delta ->
  a * a - 2 * d * delta <= (a + e) * (a + e) <= a * a + 2 * d * delta + delta * delta.
Proof.
  intros Ha He. apply Rabs_between in Ha. apply Rabs_between in He.
  assert (H1 : 0 <= (d - a) * (delta - e)) by (apply Rmult_le_pos; lra).
  assert (H2 : 0 <= (d + a) * (delta + e)) by (apply Rmult_le_pos; lra).
  assert (H3 : 0 <= (d - a) * (delta + e)) by (apply Rmult_le_pos; lra).
  assert (H4 : 0 <= (d + a) * (delta - e)) by (apply Rmult_le_pos; lra).
  assert (H5 : 0 <= (delta - e) * (delta + e)) by (apply Rmult_le_pos; lra).
  assert (H6 : 0 <= e * e) by nra.
  split; nra.
Qed.

Lemma coordinates_within_length (v : Vector3.t) :
  Rabs (Vector3.x v) <= Vector3.length v
  /\ Rabs (Vector3.y v) <= Vector3.length v
  /\ Rabs (Vector3.z v) <= Vector3.length v.
Proof.
  pose proof (length_nonneg v) as Hd.
  assert (Hd2 : Vector3.length v * Vector3.length v
                = Vector3.x v * Vector3.x v + Vector3.y v * Vector3.y v
                  + Vector3.z v * Vector3.z v).
  { unfold Vector3.length. apply sqrt_sqrt. nra. }
  repeat split; apply Rabs_le; split; nra.
Qed.

Section Float32Stores.

(** [Math.fround]: rounding to the nearest single-precision number.  On
    the magnitudes met here the result is within one part in 2^24 of the
    argument, or within 1e-45 of it for arguments so small that they round
    to a subnormal number or to zero. *)
Variable fround : R -> R.
Hypothesis fround_near :
  forall x : R, Rabs x <= 16 -> Rabs (fround x - x) <= Rabs x / 16777216 + 1e-45.

Lemma narrow_length (v : Vector3.t) :
  let d := Vector3.length v in
  let delta := d / 16777216 + 1e-45 in
  1 / 2 <= d <= 12 ->
  d - 4 * delta <= Vector3.length (Vector3.narrow fround v) <= d + 3 * delta.
Proof.
  cbv zeta. intros Hd.
  destruct (coordinates_within_length v) as (Hx & Hy & Hz).
  set (d := Vector3.length v) in *.
  set (delta := d / 16777216 + 1e-45).
  assert (Hdelta : 0 <= delta) by (unfold delta; lra).
  assert (Hsmall : 8 * delta <= d) by (unfold delta; lra).
  assert (Hd2 : d * d = Vector3.x v * Vector3.x v + Vector3.y v * Vector3.y v
                        + Vector3.z v * Vector3.z v).
  { unfold d, Vector3.length. apply sqrt_sqrt. nra. }
  assert (Herr : forall c, Rabs c <= d -> Rabs (fround c - c) <= delta).
  { intros c Hc. eapply Rle_trans; [apply fround_near; lra|]. unfold delta. lra. }
  pose proof (perturbed_square _ _ _ _ Hx (Herr _ Hx)) as Px.
  pose proof (perturbed_square _ _ _ _ Hy (Herr _ Hy)) as Py.
  pose proof (perturbed_square _ _ _ _ Hz (Herr _ Hz)) as Pz.
  replace (Vector3.x v + (fround (Vector3.x v) - Vector3.x v))
    with (fround (Vector3.x v)) in Px by ring.
  replace (Vector3.y v + (fround (Vector3.y v) - Vector3.y v))
    with (fround (Vector3.y v)) in Py by ring.
  replace (Vector3.z v + (fround (Vector3.z v) - Vector3.z v))
    with (fround (Vector3.z v)) in Pz by ring.
  assert (Hgap : 0 <= delta * (d - 8 * delta)) by (apply Rmult_le_pos; lra).
  unfold Vector3.length, Vector3.narrow; simpl.
  split.
  - rewrite <- (sqrt_square (d - 4 * delta)) by lra.
    apply sqrt_le_1_alt. nra.
  - rewrite <- (sqrt_square (d + 3 * delta)) by lra.
    apply sqrt_le_1_alt. nra.
Qed.

Lemma geometry32_spec (SphereGeometry : SphereGeometryT) (isWebGPU : bool) (g : Rng) :
  let stored := map (fun v => Vector3.narrow fround (WebGPUGlobe.displaced v))
                    (SphereGeometry WebGPUGlobe.baseRadius
                       (WebGPUGlobe.widthSegments isWebGPU)
                       (WebGPUGlobe.heightSegments isWebGPU)) in
  WebGPUGlobe.geometry32 fround SphereGeometry isWebGPU g
  = (Normal (mkGeometry
               (Vector3.buffer stored)
               (Some (Vector3.buffer
                        (map (fun v => Vector3.narrow fround (WebGPUGlobe.vertexColor v))
                             stored)))),
     g).
Proof.
  unfold WebGPUGlobe.geometry32; cbv zeta.
  now rewrite displaceLoop_spec, colorLoop_spec.
Qed.

(** X18.  With the stores into the position buffer rounded to single
    precision, the colour loop reads back the displaced vertex up to that
    rounding: for a generated vertex away from the centre, the elevation it
    computes is within 3e-7 of the displacement applied to the vertex, so
    the vertex is coloured as ocean when its displacement is at most
    0.01 - 3e-7, and, when its displacement exceeds 0.01 + 3e-7, as snow if
    the stored height component exceeds 0.8 in absolute value and as land
    otherwise. *)
Theorem stored_colour_follows_displacement
    (SphereGeometry : SphereGeometryT) (isWebGPU : bool) (g : Rng)
    (i : nat) (v : Vector3.t) :
  SphereGeometry WebGPUGlobe.baseRadius
    (WebGPUGlobe.widthSegments isWebGPU) (WebGPUGlobe.heightSegments isWebGPU)
    !! i = Some v ->
  Vector3.length v <> 0 ->
  exists (positions colors : list R) (stored c : Vector3.t),
    fst (WebGPUGlobe.geometry32 fround SphereGeometry isWebGPU g)
    = Normal (mkGeometry positions (Some colors))
    /\ Vector3.fromArray positions (3 * i) = Some stored
    /\ stored = Vector3.narrow fround (WebGPUGlobe.displaced v)
    /\ Vector3.fromArray colors (3 * i) = Some (Vector3.narrow fround c)
    /\ c = WebGPUGlobe.vertexColor stored
    /\ Rabs (WebGPUGlobe.elevationOf stored - WebGPUGlobe.displacement v) <= 3e-7
    /\ (WebGPUGlobe.displacement v <= 0.01 - 3e-7 -> c = WebGPUGlobe.ocean)
    /\ (0.01 + 3e-7 < WebGPUGlobe.displacement v ->
        (0.8 < WebGPUGlobe.latitudeOf stored -> c = WebGPUGlobe.snow)
        /\ (WebGPUGlobe.latitudeOf stored <= 0.8 ->
            c = WebGPUGlobe.land (WebGPUGlobe.elevationOf stored))).
Proof.
  intros Hi Hv.
  eexists _, _, _, _.
  rewrite geometry32_spec. cbv zeta. simpl fst.
  split; [reflexivity|].
  rewrite !fromArray_buffer, !lookup_map, Hi. simpl option_map.
  split; [reflexivity|]. split; [reflexivity|]. split; [reflexivity|]. split; [reflexivity|].
  assert (Helev : Rabs (WebGPUGlobe.elevationOf
                          (Vector3.narrow fround (WebGPUGlobe.displaced v))
                        - WebGPUGlobe.displacement v) <= 3e-7).
  { pose proof (WebGPU_displacement_bound v) as Hd.
    pose proof (WebGPU_displaced_radius v Hv) as Hr. unfold WebGPUGlobe.baseRadius in Hr.
    pose proof (narrow_length (WebGPUGlobe.displaced v)) as Hn. cbv zeta in Hn.
    rewrite Hr in Hn. specialize (Hn ltac:(lra)).
    unfold WebGPUGlobe.elevationOf. apply Rabs_le. lra. }
  split; [exact Helev|].
  apply Rabs_between in Helev.
  unfold WebGPUGlobe.vertexColor.
  split.
  - intros Hd. destruct (Rlt_dec 0.01 _) as [H|_]; [lra|reflexivity].
  - intros Hd. destruct (Rlt_dec 0.01 _) as [_|N]; [|lra].
    split; intros Hl; destruct (Rlt_dec 0.8 _) as [H|H]; try reflexivity; lra.
Qed.

(** X24.  With a random source that returns numbers in [0, 1), as
    [Math.random] does, and the stores into the position buffer rounded to
    single precision, every star is stored at a distance of more than
    7.99999 and less than 10.00001 from the centre: the radius drawn lies
    in [8, 10) and the three rounded coordinates move the star by less than
    0.00001. *)
Theorem stored_stars_lie_near_the_shell (count : nat) (g : Rng) :
  (forall n, 0 <= g n < 1) ->
  exists (positions colors : list R) (g' : Rng),
    WebGPUGlobe.starField32 fround count g = (Normal (mkGeometry positions (Some colors)), g')
    /\ List.length positions = (3 * count)%nat
    /\ forall (i : nat) (stored : Vector3.t),
         Vector3.fromArray positions (3 * i) = Some stored ->
         7.99999 < Vector3.length stored < 10.00001.
Proof.
  intros Hg. destruct (stars_run count g) as (ps & g' & Hrun & Hlen & _ & Hin).
  specialize (Hin Hg).
  unfold WebGPUGlobe.starField32, mbind, eff_bind. rewrite Hrun. simpl.
  eexists _, _, _. split; [reflexivity|].
  split; [now rewrite buffer_length, length_map, Hlen|].
  intros i stored. change (i + (i + (i + 0)))%nat with (3 * i)%nat.
  rewrite fromArray_buffer, lookup_map.
  destruct (ps !! i) as [star|] eqn:Hstar; [|discriminate].
  simpl. intros H. injection H as <-.
  apply (proj1 (Forall_lookup _ _)) with (i := i) (x := star) in Hin; [|exact Hstar].
  destruct Hin as [Hd _].
  pose proof (narrow_length (fst star)) as Hn. cbv zeta in Hn.
  specialize (Hn ltac:(lra)). lra.
Qed.

End Float32Stores.

Lemma exact_store_is_near (x : R) :
  Rabs x <= 16 -> Rabs (x - x) <= Rabs x / 16777216 + 1e-45.
Proof.
  intros _. replace (x - x) with 0 by ring. rewrite Rabs_R0.
  pose proof (Rabs_pos x). lra.
Qed.

Lemma stored_colour_follows_displacement_witness :
  exists (positions colors : list R),
    fst (WebGPUGlobe.geometry32 (fun x => x) poleOnly false noRandom)
    = Normal (mkGeometry positions (Some colors))
    /\ Vector3.fromArray colors 0 = Some WebGPUGlobe.ocean.
Proof.
  destruct (stored_colour_follows_displacement (fun x => x) exact_store_is_near
              poleOnly false noRandom 0 (northPole 1))
    as (positions & colors & stored & c & Hgeo & _ & _ & Hcol & _ & _ & Hocean & _).
  - reflexivity.
  - rewrite length_northPole; lra.
  - exists positions, colors. split; [exact Hgeo|].
    rewrite Hocean in Hcol by (rewrite WebGPU_displacement_pole; lra).
    exact Hcol.
Defined.

Lemma stored_stars_lie_near_the_shell_witness :
  exists (positions colors : list R) (g' : Rng),
    WebGPUGlobe.starField32 (fun x => x) 2 noRandom
    = (Normal (mkGeometry positions (Some colors)), g')
    /\ List.length positions = 6%nat.
Proof.
  destruct (stored_stars_lie_near_the_shell (fun x => x) exact_store_is_near 2 noRandom)
    as (positions & colors & g' & Hrun & Hlen & _).
  - intros n. unfold noRandom. lra.
  - exists positions, colors, g'. split; [exact Hrun|exact Hlen].
Defined.
